(** * Kokoro ONNX text-to-speech pipeline (kokoroOnnx): tokenizer, style
    slicing, request assembly and WAV encoding.

    The development embeds the JavaScript of the [KokoroOnnx] class:
    - JavaScript numbers are IEEE binary64 values, modelled by the Standard
      Library's executable specification of floating point ([spec_float] with
      precision 53 and maximal exponent 1024); elements of a [Float32Array] are
      binary32 values (precision 24, maximal exponent 128);
    - integer quantities (array lengths, byte offsets, token ids) are [Z];
    - an [ArrayBuffer] is a list of bytes written through [DataView] setters
      that raise [RangeError] out of bounds;
    - thrown exceptions are the [Throw] case of [result];
    - what the class imports from the platform (string lower-casing, the
      voice store, the tensor constructor, the inference session, the file
      system, the audio service) is a [Runtime] record the functions take as
      an argument. *)

From Stdlib Require Import ZArith List Lia Bool QArith Qround Qpower.
From Stdlib Require Import Floats.SpecFloat Ascii.
From stdpp Require Import gmap list strings pretty.

Open Scope Z_scope.

(** ** Exceptions *)

Inductive exn :=
| RangeError                (* DataView access outside the buffer *)
| Error (msg : string)      (* [new Error(msg)] *)
| Foreign (tag : string).   (* anything a platform call throws *)

Inductive result (A : Type) :=
| Ok (a : A)
| Throw (e : exn).
Arguments Ok {A} a.
Arguments Throw {A} e.

#[global] Instance result_ret : MRet result := fun A a => Ok a.
#[global] Instance result_bind : MBind result := fun A B k r =>
  match r with
  | Ok a => k a
  | Throw e => Throw e
  end.

(** ** JavaScript numbers *)

Module JS.

(** A Number is a binary64 float. *)
Definition number := spec_float.

Definition prec64 : Z := 53.
Definition emax64 : Z := 1024.
Definition prec32 : Z := 24.
Definition emax32 : Z := 128.

(** Well-formed element of a [Float32Array]. *)
Definition is_float32 (x : spec_float) : bool := valid_binary prec32 emax32 x.

(** Reading a [Float32Array] element yields the same value as a Number:
    the binary32 mantissa is realigned to 53 bits. *)
Definition f32_to_number (x : spec_float) : number :=
  match x with
  | S754_finite s m e => binary_round prec64 emax64 s m e
  | _ => x
  end.

(** Number denoted by an integer literal. *)
Definition number_of_Z (z : Z) : number :=
  binary_normalize prec64 emax64 z 0 false.

(** [x * y] on Numbers. *)
Definition mul (x y : number) : number := SFmul prec64 emax64 x y.

(** [Math.floor]: a Number with a non-negative exponent is already an
    integer; [-0], NaN and the infinities are returned unchanged. *)
Definition Math_floor (x : number) : number :=
  match x with
  | S754_finite s m (Zneg k) =>
      number_of_Z (cond_Zopp s (Zpos m) / 2 ^ Zpos k)
  | _ => x
  end.

(** [Math.min(a, b)] and [Math.max(a, b)]: NaN if either argument is NaN,
    and [-0] counts as smaller than [+0]. *)
Definition Math_min (a b : number) : number :=
  match SFcompare a b with
  | None => S754_nan
  | Some Lt => a
  | Some Gt => b
  | Some Eq => match a with S754_zero true => a | _ => b end
  end.

Definition Math_max (a b : number) : number :=
  match SFcompare a b with
  | None => S754_nan
  | Some Lt => b
  | Some Gt => a
  | Some Eq => match a with S754_zero false => a | _ => b end
  end.

(** Integer part of a Number, rounding towards zero; 0 for NaN, the
    infinities and the zeros (the first steps of ToInt16 / ToUint32). *)
Definition truncate (x : number) : Z :=
  match x with
  | S754_finite s m e =>
      cond_Zopp s (match e with
                   | Zneg k => Zpos m / 2 ^ Zpos k
                   | _ => Zpos m * 2 ^ e
                   end)
  | _ => 0
  end.

(** Two's complement wrap of an integer to [bits] bits, signed. *)
Definition wrap_signed (bits : Z) (z : Z) : Z :=
  let r := z mod 2 ^ bits in
  if 2 ^ (bits - 1) <=? r then r - 2 ^ bits else r.

(** ToInt16, applied when a Number is stored in an [Int16Array]. *)
Definition ToInt16 (x : number) : Z := wrap_signed 16 (truncate x).

(** Rounding of a Number to binary32, applied when it is stored in a
    [Float32Array]. *)
Definition fround (x : number) : spec_float :=
  match x with
  | S754_finite s m e => binary_round prec32 emax32 s m e
  | _ => x
  end.

End JS.

(** ** PCM conversion of one sample *)

(** [Math.max(-32768, Math.min(32767, Math.floor(x * 32767)))] stored into
    an [Int16Array] cell. [x] is the Number read from the float array. *)
Definition pcm_of_number (x : JS.number) : Z :=
  JS.ToInt16
    (JS.Math_max (JS.number_of_Z (-32768))
       (JS.Math_min (JS.number_of_Z 32767)
          (JS.Math_floor (JS.mul x (JS.number_of_Z 32767))))).

Definition floatToPcm (s : spec_float) : Z := pcm_of_number (JS.f32_to_number s).

(** Some binary32 constants. *)
Definition f32_zero : spec_float := S754_zero false.
Definition f32_half : spec_float := S754_finite false 8388608 (-24).
Definition f32_one : spec_float := S754_finite false 8388608 (-23).
Definition f32_neg_one : spec_float := S754_finite true 8388608 (-23).
Definition f32_two : spec_float := S754_finite false 8388608 (-22).
Definition f32_neg_two : spec_float := S754_finite true 8388608 (-22).


(** ** The conversion as the specification words it *)

(** Rational value of a finite float: (-1)^s * m * 2^e. *)
Definition F2Q (x : spec_float) : Q :=
  match x with
  | S754_finite s m e => (inject_Z (cond_Zopp s (Zpos m)) * (2 # 1) ^ e)%Q
  | _ => 0%Q
  end.

(** [clamp(v, lo, hi)]. *)
Definition clamp (v lo hi : Z) : Z := Z.max lo (Z.min hi v).

(** [pcm = clamp(floor(s * 32767), -32768, 32767)] over the rationals. *)
Definition pcm_spec (q : Q) : Z := clamp (Qfloor (q * (32767 # 1))) (-32768) 32767.

(** Floor of the dyadic rational [z * 2^e]. *)
Definition dyadic_floor (z e : Z) : Z :=
  match e with
  | Zneg k => z / 2 ^ Zpos k
  | _ => z * 2 ^ e
  end.

(** ** ArrayBuffer and DataView *)

Module DataView.

(** The bytes of an [ArrayBuffer], each in 0..255. *)
Abbreviation buffer := (list Z).

(** [new ArrayBuffer(n)]: [n] zero bytes. *)
Definition ArrayBuffer_new (n : Z) : buffer := replicate (Z.to_nat n) 0.

Definition in_bounds (b : buffer) (byteOffset size : Z) : bool :=
  (0 <=? byteOffset) && (byteOffset + size <=? Z.of_nat (length b)).

(** [view.setUint8(byteOffset, value)]. *)
Definition setUint8 (b : buffer) (byteOffset value : Z) : result buffer :=
  if in_bounds b byteOffset 1
  then Ok (<[Z.to_nat byteOffset := value mod 256]> b)
  else Throw RangeError.

(** [view.setUint16(byteOffset, value, littleEndian)]: the value is taken
    modulo 2^16. *)
Definition setUint16 (b : buffer) (byteOffset value : Z) (littleEndian : bool)
  : result buffer :=
  if in_bounds b byteOffset 2 then
    let w := value mod 2 ^ 16 in
    let i := Z.to_nat byteOffset in
    let b0 := w mod 256 in
    let b1 := w / 256 in
    Ok (if littleEndian
        then <[S i := b1]> (<[i := b0]> b)
        else <[S i := b0]> (<[i := b1]> b))
  else Throw RangeError.

(** [view.setInt16]: same bytes as [setUint16] (two's complement). *)
Definition setInt16 (b : buffer) (byteOffset value : Z) (littleEndian : bool)
  : result buffer :=
  setUint16 b byteOffset value littleEndian.

(** [view.setUint32(byteOffset, value, littleEndian)]: the value is taken
    modulo 2^32. *)
Definition setUint32 (b : buffer) (byteOffset value : Z) (littleEndian : bool)
  : result buffer :=
  if in_bounds b byteOffset 4 then
    let w := value mod 2 ^ 32 in
    let i := Z.to_nat byteOffset in
    let b0 := w mod 256 in
    let b1 := (w / 256) mod 256 in
    let b2 := (w / 65536) mod 256 in
    let b3 := w / 16777216 in
    Ok (if littleEndian
        then <[S (S (S i)) := b3]> (<[S (S i) := b2]> (<[S i := b1]> (<[i := b0]> b)))
        else <[S (S (S i)) := b0]> (<[S (S i) := b1]> (<[S i := b2]> (<[i := b3]> b))))
  else Throw RangeError.

End DataView.

(** ['c'.charCodeAt(0)] for an ASCII character. *)
Definition charCodeAt0 (c : ascii) : Z := Z.of_N (N_of_ascii c).
Arguments charCodeAt0 c%_char.

(** [for (let i = start; i < start + count; i++) body], threading the
    mutated object; an exception leaves the loop. *)
Fixpoint for_range {S : Type} (start count : nat)
    (body : nat -> S -> result S) (s : S) : result S :=
  match count with
  | O => Ok s
  | Datatypes.S count' => s' ← body start s; for_range (Datatypes.S start) count' body s'
  end.

(** [floatArray[i]] as a Number: [undefined] (hence NaN in arithmetic)
    outside the array. *)
Definition read_float32 (floatArray : list spec_float) (i : nat) : JS.number :=
  match floatArray !! i with
  | Some x => JS.f32_to_number x
  | None => S754_nan
  end.

(** [int16Array[i]] passed to a [DataView] setter: [undefined] converts
    to 0. *)
Definition read_int16 (int16Array : list Z) (i : nat) : Z :=
  match int16Array !! i with
  | Some v => v
  | None => 0
  end.

(** ** The WAV encoder *)

Definition SAMPLE_RATE : Z := 24000.
Definition STYLE_DIM : Z := 256.
Definition MAX_PHONEME_LENGTH : Z := 510.

Definition _floatArrayToWav (floatArray : list spec_float) (sampleRate : Z)
  : result DataView.buffer :=
  let numSamples := length floatArray in
  (* new Int16Array(numSamples), then the conversion loop *)
  int16Array ← for_range 0 numSamples
    (fun i a => Ok (<[i := pcm_of_number (read_float32 floatArray i)]> a))
    (replicate numSamples 0);
  let headerLength := 44 in
  let dataLength := Z.of_nat (length int16Array) * 2 in
  let view := DataView.ArrayBuffer_new (headerLength + dataLength) in
  (* "RIFF" chunk descriptor *)
  view ← DataView.setUint8 view 0 (charCodeAt0 "R");
  view ← DataView.setUint8 view 1 (charCodeAt0 "I");
  view ← DataView.setUint8 view 2 (charCodeAt0 "F");
  view ← DataView.setUint8 view 3 (charCodeAt0 "F");
  (* chunk size *)
  view ← DataView.setUint32 view 4 (36 + dataLength) true;
  (* "WAVE" format *)
  view ← DataView.setUint8 view 8 (charCodeAt0 "W");
  view ← DataView.setUint8 view 9 (charCodeAt0 "A");
  view ← DataView.setUint8 view 10 (charCodeAt0 "V");
  view ← DataView.setUint8 view 11 (charCodeAt0 "E");
  (* "fmt " subchunk *)
  view ← DataView.setUint8 view 12 (charCodeAt0 "f");
  view ← DataView.setUint8 view 13 (charCodeAt0 "m");
  view ← DataView.setUint8 view 14 (charCodeAt0 "t");
  view ← DataView.setUint8 view 15 (charCodeAt0 " ");
  (* subchunk size *)
  view ← DataView.setUint32 view 16 16 true;
  (* audio format (PCM) *)
  view ← DataView.setUint16 view 20 1 true;
  (* number of channels *)
  view ← DataView.setUint16 view 22 1 true;
  (* sample rate *)
  view ← DataView.setUint32 view 24 sampleRate true;
  (* byte rate *)
  view ← DataView.setUint32 view 28 (sampleRate * 2) true;
  (* block align *)
  view ← DataView.setUint16 view 32 2 true;
  (* bits per sample *)
  view ← DataView.setUint16 view 34 16 true;
  (* "data" subchunk *)
  view ← DataView.setUint8 view 36 (charCodeAt0 "d");
  view ← DataView.setUint8 view 37 (charCodeAt0 "a");
  view ← DataView.setUint8 view 38 (charCodeAt0 "t");
  view ← DataView.setUint8 view 39 (charCodeAt0 "a");
  (* subchunk size *)
  view ← DataView.setUint32 view 40 dataLength true;
  (* audio data *)
  for_range 0 numSamples
    (fun i v => DataView.setInt16 v (headerLength + Z.of_nat i * 2)
                  (read_int16 int16Array i) true)
    view.

(** ** Little-endian fields, as the specification words them *)

(** The two bytes of a 16-bit field, least significant first; a negative
    value is in two's complement. *)
Definition le16 (v : Z) : list Z := [v mod 256; (v / 256) mod 256].

(** The four bytes of a 32-bit field, least significant first. *)
Definition le32 (v : Z) : list Z :=
  [v mod 256; (v / 256) mod 256; (v / 65536) mod 256; (v / 16777216) mod 256].

(** The [len] bytes of [b] from byte offset [off]. *)
Definition bytesAt (b : list Z) (off len : nat) : list Z := take len (drop off b).

(** Unsigned value of the little-endian field of [len] bytes at [off]. *)
Definition fieldAt (b : list Z) (off len : nat) : Z :=
  foldr (fun byte acc => byte + 256 * acc) 0 (bytesAt b off len).

(** Signed value of the 16-bit little-endian field at [off]. *)
Definition int16At (b : list Z) (off : nat) : Z :=
  JS.wrap_signed 16 (fieldAt b off 2).

Definition ascii_codes (s : list ascii) : list Z := map charCodeAt0 s.

(** ** Strings and the vocabulary *)

(** A JavaScript string as the sequence of code points its iterator
    (the [for ... of] loop) yields. *)
Definition codepoint := N.
Definition jsstring := list codepoint.

Definition cp (c : ascii) : codepoint := N_of_ascii c.
Arguments cp c%_char.

(** The string of an ASCII literal. *)
Definition js (s : string) : jsstring := map N_of_ascii (String.list_ascii_of_string s).

(** The [VOCAB] object: single-character keys to token ids. *)
Definition VOCAB : gmap N Z :=
  list_to_map
    [ (cp " ", 6); (cp ",", 2); (cp ".", 3); (cp "!", 4); (cp "?", 5);
      (cp "a", 33); (cp "b", 34); (cp "c", 35); (cp "d", 36); (cp "e", 37);
      (cp "f", 38); (cp "g", 39); (cp "h", 40); (cp "i", 41); (cp "j", 42);
      (cp "k", 43); (cp "l", 44); (cp "m", 45); (cp "n", 46); (cp "o", 47);
      (cp "p", 48); (cp "q", 49); (cp "r", 50); (cp "s", 51); (cp "t", 52);
      (cp "u", 53); (cp "v", 54); (cp "w", 55); (cp "x", 56); (cp "y", 57);
      (cp "z", 58) ].

(** Lower-casing of one ASCII code point; other code points unchanged. *)
Definition ascii_lower (c : codepoint) : codepoint :=
  if ((65 <=? c) && (c <=? 90))%N then (c + 32)%N else c.

Definition is_ascii (c : codepoint) : Prop := (c < 128)%N.

(** ** Arrays *)

(** [array.slice(start, end)] of arrays and typed arrays: negative
    indices count from the end, both bounds are clamped to the length, and
    an empty range yields the empty array. It never throws. *)
Definition slice {A : Type} (l : list A) (start end_ : Z) : list A :=
  let len := Z.of_nat (length l) in
  let k := if start <? 0 then Z.max (len + start) 0 else Z.min start len in
  let final := if end_ <? 0 then Z.max (len + end_) 0 else Z.min end_ len in
  let count := Z.max (final - k) 0 in
  take (Z.to_nat count) (drop (Z.to_nat k) l).

(** ** Tensors and the platform *)

Inductive tensorData :=
| Int32ArrayData (l : list Z)
| ArrayData (l : list Z)
| Float32ArrayData (l : list spec_float).

Record Tensor := mkTensor {
  tensor_type : string;
  tensor_data : tensorData;
  tensor_dims : list Z
}.

Definition tensor_size (d : tensorData) : nat :=
  match d with
  | Int32ArrayData l | ArrayData l => length l
  | Float32ArrayData l => length l
  end.

(** A tensor of the engine's response; [data] is [None] when the property
    is [null] or [undefined], and a (possibly empty) [Float32Array]
    otherwise. *)
Record OutputTensor := mkOutput { data : option (list spec_float) }.

(** The response of [session.run]: [None] for [null]/[undefined],
    otherwise the named outputs. *)
Definition Outputs := option (gmap string OutputTensor).

Record Sound := mkSound { sound_uri : string }.

(** What the class observably does to the platform. *)
Inductive event :=
| EvMakeDirectory (path : string)
| EvDownload (url path : string)
| EvRun (inputs : gmap string Tensor)
| EvWriteFile (path : string) (base64 : string)
| EvCreateSound (uri : string).

(** The platform the class is linked against: ECMAScript built-ins, the
    file system, the voice store, the tensor constructor, the inference
    session and the audio service. Each call either returns or throws. *)
Record Runtime := mkRuntime {
  toLowerCase : jsstring -> jsstring;
  btoa : list Z -> string;
  Date_now : Z;
  cacheDirectory : string;
  documentDirectory : string;
  getInfoAsync_exists : string -> result bool;
  makeDirectoryAsync : string -> result unit;
  downloadAsync_status : string -> string -> result Z;
  writeAsStringAsync : string -> string -> result unit;
  getVoiceData : string -> result (list spec_float);
  Tensor_new : string -> tensorData -> list Z -> result Tensor;
  session_run : gmap string Tensor -> result Outputs;
  Sound_createAsync : string -> result Sound
}.

(** On ASCII text [toLowerCase] lower-cases code point by code point. *)
Definition lowers_ascii (rt : Runtime) : Prop :=
  forall s, Forall is_ascii s -> toLowerCase rt s = map ascii_lower s.

(** ** Effects: a log of platform events and an exception *)

Definition M (A : Type) : Type := result A * list event.

#[global] Instance M_ret : MRet M := fun A a => (Ok a, []).
#[global] Instance M_bind : MBind M := fun A B k m =>
  match m with
  | (Ok a, log) => let '(r, log') := k a in (r, log ++ log')
  | (Throw e, log) => (Throw e, log)
  end.

Definition throw {A} (e : exn) : M A := (Throw e, []).
Definition lift {A} (r : result A) : M A := (r, []).
Definition emit (ev : event) : M unit := (Ok tt, [ev]).

(** [try { body } catch (error) { handler error }]. *)
Definition try_catch {A} (body : M A) (handler : exn -> M A) : M A :=
  match body with
  | (Ok a, log) => (Ok a, log)
  | (Throw e, log) => let '(r, log') := handler e in (r, log ++ log')
  end.

(** ** The KokoroOnnx class *)

Definition VOICE_DATA_URL : string :=
  "https://huggingface.co/onnx-community/Kokoro-82M-v1.0-ONNX/resolve/main/voices".

Record KokoroOnnx := mkKokoroOnnx {
  isModelLoaded : bool;
  isOnnxAvailable : bool
}.

Definition downloadVoice (rt : Runtime) (voiceId : string) : M bool :=
  try_catch
    (let voiceDirPath := documentDirectory rt +:+ "voices" in
     dirExists ← lift (getInfoAsync_exists rt voiceDirPath);
     _ ← (if negb dirExists
          then _ ← emit (EvMakeDirectory voiceDirPath);
               lift (makeDirectoryAsync rt voiceDirPath)
          else mret tt);
     let voiceFilePath := voiceDirPath +:+ "/" +:+ voiceId +:+ ".bin" in
     fileExists ← lift (getInfoAsync_exists rt voiceFilePath);
     if fileExists : bool then mret true
     else
       let voiceUrl := VOICE_DATA_URL +:+ "/" +:+ voiceId +:+ ".bin" in
       _ ← emit (EvDownload voiceUrl voiceFilePath);
       status ← lift (downloadAsync_status rt voiceUrl voiceFilePath);
       if status =? 200 then mret true else mret false)
    (fun _ => mret false).

(** [tokenize(text)]: push 0, push the id of every lower-cased character
    found in [VOCAB], push 0. *)
Definition tokenize (rt : Runtime) (text : jsstring) : list Z :=
  let tokens := [] in
  let tokens := tokens ++ [0] in
  let tokens :=
    foldl (fun tokens char =>
             match VOCAB !! char with
             | Some id => tokens ++ [id]
             | None => tokens
             end)
          tokens (toLowerCase rt text) in
  tokens ++ [0].

(** [Math.min(Math.max(tokens.length - 2, 0), 509)]. *)
Definition numTokens (tokens : list Z) : Z :=
  Z.min (Z.max (Z.of_nat (length tokens) - 2) 0) 509.

(** [voiceData.slice(offset, offset + STYLE_DIM)] with
    [offset = numTokens * STYLE_DIM]; evaluating it raises nothing. *)
Definition getStyleSlice (voiceData : list spec_float) (tokenCount : Z)
  : result (list spec_float) :=
  let offset := tokenCount * STYLE_DIM in
  Ok (slice voiceData offset (offset + STYLE_DIM)).

(** [_arrayBufferToBase64(buffer)]: the binary string of the bytes, then
    [btoa]. *)
Definition _arrayBufferToBase64 (rt : Runtime) (buffer : DataView.buffer) : string :=
  let bytes := buffer in
  let binary := foldl (fun binary byte => binary ++ [byte]) [] bytes in
  btoa rt binary.

Definition _floatArrayToAudioFile (rt : Runtime) (floatArray : list spec_float)
  : M string :=
  try_catch
    (wavBuffer ← lift (_floatArrayToWav floatArray SAMPLE_RATE);
     let base64Data := _arrayBufferToBase64 rt wavBuffer in
     let tempFilePath :=
       cacheDirectory rt +:+ "temp_audio_" +:+ pretty (Date_now rt) +:+ ".wav" in
     _ ← emit (EvWriteFile tempFilePath base64Data);
     _ ← lift (writeAsStringAsync rt tempFilePath base64Data);
     mret tempFilePath)
    (fun error => throw error).

(** [!outputs || !outputs['waveform'] || !outputs['waveform'].data]: the
    waveform when all three are truthy. An array object is truthy whatever
    its length. *)
Definition waveform_of (outputs : Outputs) : option (list spec_float) :=
  match outputs with
  | None => None
  | Some o =>
      match o !! "waveform" with
      | None => None
      | Some t => data t
      end
  end.

Definition generateAudio (rt : Runtime) (this : KokoroOnnx) (text : jsstring)
    (voiceId : option string) (speed : option JS.number) : M Sound :=
  let voiceId := default "af_heart" voiceId in
  let speed := default (JS.number_of_Z 1) speed in
  if negb (isOnnxAvailable this)
  then throw (Error "ONNX Runtime is not available on this platform")
  else if negb (isModelLoaded this)
  then throw (Error "Model not loaded. Call loadModel() first.")
  else
    try_catch
      ((* ensure voice is downloaded *)
       _ ← downloadVoice rt voiceId;
       (* 1. tokenize the input text *)
       let tokens := tokenize rt text in
       let numTokens := numTokens tokens in
       (* 2. get voice style data *)
       voiceData ← lift (getVoiceData rt voiceId);
       styleData ← lift (getStyleSlice voiceData numTokens);
       (* 3. prepare input tensors *)
       let inputs : gmap string Tensor := ∅ in
       let tokens_length := Z.of_nat (length tokens) in
       input_ids ←
         try_catch
           (lift (Tensor_new rt "int64"
                    (Int32ArrayData (map (JS.wrap_signed 32) tokens))
                    [1; tokens_length]))
           (fun _ => lift (Tensor_new rt "int64" (ArrayData tokens)
                             [1; tokens_length]));
       let inputs := <["input_ids" := input_ids]> inputs in
       style ← lift (Tensor_new rt "float32" (Float32ArrayData styleData)
                       [1; STYLE_DIM]);
       let inputs := <["style" := style]> inputs in
       speed_t ← lift (Tensor_new rt "float32"
                         (Float32ArrayData [JS.fround speed]) [1]);
       let inputs := <["speed" := speed_t]> inputs in
       (* 4. run inference *)
       _ ← emit (EvRun inputs);
       outputs ← lift (session_run rt inputs);
       match waveform_of outputs with
       | None => throw (Error "Invalid output from model inference")
       | Some waveform =>
           (* 6. convert to audio buffer *)
           audioUri ← _floatArrayToAudioFile rt waveform;
           (* 7. create the Sound object *)
           _ ← emit (EvCreateSound audioUri);
           lift (Sound_createAsync rt audioUri)
       end)
      (fun error => throw error).

(** The canonical 44-byte header for mono 16-bit PCM: the fields in order,
    at byte offsets 0, 4, 8, 12, 16, 20, 22, 24, 28, 32, 34, 36 and 40. *)
Definition wav_header (sampleRate dataLength : Z) : list Z :=
  ascii_codes ["R"; "I"; "F"; "F"]%char
  ++ le32 (36 + dataLength)
  ++ ascii_codes ["W"; "A"; "V"; "E"]%char
  ++ ascii_codes ["f"; "m"; "t"; " "]%char
  ++ le32 16
  ++ le16 1
  ++ le16 1
  ++ le32 sampleRate
  ++ le32 (sampleRate * 2)
  ++ le16 2
  ++ le16 16
  ++ ascii_codes ["d"; "a"; "t"; "a"]%char
  ++ le32 dataLength.

(** ** A reference platform

    A platform on which every call succeeds, used to run the class on
    concrete requests. Its tensor constructor behaves as the inference
    runtime's: an [int64] tensor refuses an [Int32Array], and the number of
    elements must match the shape. *)

Definition base64_alphabet : list ascii :=
  String.list_ascii_of_string
    "ABCDEFGHIJKLMNOPQRSTUVWXYZabcdefghijklmnopqrstuvwxyz0123456789+/".

Definition base64_digit (i : Z) : ascii := nth (Z.to_nat i) base64_alphabet "="%char.

Fixpoint base64_chars (bytes : list Z) : list ascii :=
  match bytes with
  | a :: b :: c :: rest =>
      base64_digit (a / 4) :: base64_digit (a mod 4 * 16 + b / 16)
      :: base64_digit (b mod 16 * 4 + c / 64) :: base64_digit (c mod 64)
      :: base64_chars rest
  | [a; b] =>
      [base64_digit (a / 4); base64_digit (a mod 4 * 16 + b / 16);
       base64_digit (b mod 16 * 4); "="%char]
  | [a] =>
      [base64_digit (a / 4); base64_digit (a mod 4 * 16); "="%char; "="%char]
  | [] => []
  end.

Definition base64 (bytes : list Z) : string :=
  String.string_of_list_ascii (base64_chars bytes).

Definition reference_Tensor_new (type : string) (d : tensorData) (dims : list Z)
  : result Tensor :=
  match type, d with
  | "int64"%string, Int32ArrayData _ => Throw (Foreign "TypeError")
  | _, _ =>
      if foldr Z.mul 1 dims =? Z.of_nat (tensor_size d)
      then Ok (mkTensor type d dims)
      else Throw (Error "Tensor's size does not match data length")
  end.

Definition reference_runtime (voice : list spec_float) (response : result Outputs)
  : Runtime :=
  {| toLowerCase := map ascii_lower;
     btoa := base64;
     Date_now := 1700000000000;
     cacheDirectory := "file:///cache/";
     documentDirectory := "file:///documents/";
     getInfoAsync_exists := fun _ => Ok true;
     makeDirectoryAsync := fun _ => Ok tt;
     downloadAsync_status := fun _ _ => Ok 200;
     writeAsStringAsync := fun _ _ => Ok tt;
     getVoiceData := fun _ => Ok voice;
     Tensor_new := reference_Tensor_new;
     session_run := fun _ => response;
     Sound_createAsync := fun uri => Ok (mkSound uri) |}.

(** A response holding the given waveform. *)
Definition waveform_response (samples : list spec_float) : result Outputs :=
  Ok (Some {[ "waveform"%string := mkOutput (Some samples) ]}).

(** A voice blob of [frames] style frames. *)
Definition voice_of_frames (frames : nat) : list spec_float :=
  replicate (frames * 256) f32_half.

Definition loaded : KokoroOnnx :=
  {| isModelLoaded := true; isOnnxAvailable := true |}.

(** ** Derived notions used in the statements *)

(** Events that create audio: the WAV file and the Sound object. *)
Definition is_audio_event (ev : event) : bool :=
  match ev with
  | EvWriteFile _ _ | EvCreateSound _ => true
  | _ => false
  end.

(** Events of the voice download. *)
Definition is_download_event (ev : event) : bool :=
  match ev with
  | EvMakeDirectory _ | EvDownload _ _ => true
  | _ => false
  end.

(** Steps 1 to 3 of [generateAudio] taken alone: the request the session
    is run on, or the exception raised while building it. *)
Definition request_inputs (rt : Runtime) (text : jsstring) (voiceId : string)
    (speed : JS.number) : result (gmap string Tensor) :=
  let tokens := tokenize rt text in
  let tokens_length := Z.of_nat (length tokens) in
  voiceData ← getVoiceData rt voiceId;
  styleData ← getStyleSlice voiceData (numTokens tokens);
  input_ids ←
    match Tensor_new rt "int64" (Int32ArrayData (map (JS.wrap_signed 32) tokens))
            [1; tokens_length] with
    | Ok t => Ok t
    | Throw _ => Tensor_new rt "int64" (ArrayData tokens) [1; tokens_length]
    end;
  style ← Tensor_new rt "float32" (Float32ArrayData styleData) [1; STYLE_DIM];
  speed_t ← Tensor_new rt "float32" (Float32ArrayData [JS.fround speed]) [1];
  Ok (<["speed" := speed_t]> (<["style" := style]> (<["input_ids" := input_ids]> ∅))).

(** Steps 6 and 7 taken alone. *)
Definition play_waveform (rt : Runtime) (waveform : list spec_float) : M Sound :=
  audioUri ← _floatArrayToAudioFile rt waveform;
  _ ← emit (EvCreateSound audioUri);
  lift (Sound_createAsync rt audioUri).

(** The response fails the check of step 4: it is absent, has no
    [waveform] output, or that output has no data. *)
Definition invalid_outputs (outputs : Outputs) : Prop :=
  outputs = None
  \/ (exists o, outputs = Some o /\ o !! "waveform"%string = None)
  \/ (exists o t, outputs = Some o /\ o !! "waveform"%string = Some t /\ data t = None).

Definition tempFilePath (rt : Runtime) : string :=
  cacheDirectory rt +:+ "temp_audio_" +:+ pretty (Date_now rt) +:+ ".wav".

(** ** Further notions used in the statements *)

(** A sample that denotes a number: a zero or a finite value. *)
Definition is_finite_sample (x : spec_float) : bool :=
  match x with
  | S754_zero _ | S754_finite _ _ _ => true
  | _ => false
  end.

(** A well-formed byte. *)
Definition is_byte (b : Z) : Prop := 0 <= b < 256.

(** Paths of the voice store, as [downloadVoice] builds them. *)
Definition voiceDirPath (rt : Runtime) : string := documentDirectory rt +:+ "voices".

Definition voiceFilePath (rt : Runtime) (voiceId : string) : string :=
  voiceDirPath rt +:+ "/" +:+ voiceId +:+ ".bin".

Definition voiceUrl (voiceId : string) : string :=
  VOICE_DATA_URL +:+ "/" +:+ voiceId +:+ ".bin".

Definition is_run_event (ev : event) : bool :=
  match ev with
  | EvRun _ => true
  | _ => false
  end.

Definition is_write_event (ev : event) : bool :=
  match ev with
  | EvWriteFile _ _ => true
  | _ => false
  end.

(** The bytes of the WAV file of a waveform at the class's sample rate. *)
Definition wav_bytes (waveform : list spec_float) : list Z :=
  wav_header SAMPLE_RATE (Z.of_nat (length waveform) * 2)
  ++ flat_map le16 (map floatToPcm waveform).

(** ** Model loading *)

Definition MODEL_FILENAME : string := "model_q8f16.onnx".

Definition MODEL_PATH (rt : Runtime) : string := cacheDirectory rt +:+ MODEL_FILENAME.

(** An inference session handle. *)
Inductive Session := SessionHandle (id : Z).

Record SessionOptions := mkSessionOptions {
  executionProviders : list string;
  graphOptimizationLevel : string;
  enableCpuMemArena : bool;
  enableMemPattern : bool;
  executionMode : string
}.

(** The [options] object of [loadModel]. *)
Definition session_options : SessionOptions :=
  {| executionProviders := ["cpuexecutionprovider"%string];
     graphOptimizationLevel := "all";
     enableCpuMemArena := true;
     enableMemPattern := true;
     executionMode := "sequential" |}.

(** The ONNX runtime binding as the class sees it: whether
    [InferenceSession] is defined, whether its [create] is a function, the
    platform name, and [InferenceSession.create(path, options?)], which
    returns a session (possibly a falsy value, [None]) or throws. *)
Record OnnxPlatform := mkOnnxPlatform {
  InferenceSession_defined : bool;
  InferenceSession_create_is_function : bool;
  Platform_OS : string;
  InferenceSession_create : string -> option SessionOptions -> result (option Session)
}.

(** The fields of a [KokoroOnnx] instance. *)
Record Instance := mkInstance {
  session : option Session;
  flags : KokoroOnnx;
  voiceCache : gmap string (list spec_float)
}.

(** [new KokoroOnnx()]. *)
Definition constructor : Instance :=
  {| session := None;
     flags := {| isModelLoaded := false; isOnnxAvailable := true |};
     voiceCache := ∅ |}.

Definition set_isOnnxAvailable (b : bool) (this : Instance) : Instance :=
  {| session := session this;
     flags := {| isModelLoaded := isModelLoaded (flags this); isOnnxAvailable := b |};
     voiceCache := voiceCache this |}.

Definition set_isModelLoaded (b : bool) (this : Instance) : Instance :=
  {| session := session this;
     flags := {| isModelLoaded := b; isOnnxAvailable := isOnnxAvailable (flags this) |};
     voiceCache := voiceCache this |}.

Definition set_session (s : option Session) (this : Instance) : Instance :=
  {| session := s; flags := flags this; voiceCache := voiceCache this |}.

(** [checkOnnxAvailability()]: the result and the updated instance. Nothing
    in its [try] block can throw. *)
Definition checkOnnxAvailability (onnx : OnnxPlatform) (this : Instance)
  : bool * Instance :=
  if negb (InferenceSession_defined onnx)
     || negb (InferenceSession_create_is_function onnx)
  then (false, set_isOnnxAvailable false this)
  else (true, set_isOnnxAvailable true this).

(** [loadModel()]: every exception is caught and turned into [false]; the
    instance keeps the assignments made before the exception. *)
Definition loadModel (onnx : OnnxPlatform) (rt : Runtime) (this : Instance)
  : bool * Instance :=
  let '(available, this) := checkOnnxAvailability onnx this in
  if negb available then (false, this)
  else
    match getInfoAsync_exists rt (MODEL_PATH rt) with
    | Throw _ => (false, this)
    | Ok false => (false, this)
    | Ok true =>
        let created :=
          match InferenceSession_create onnx (MODEL_PATH rt) (Some session_options) with
          | Ok s => Ok s
          | Throw _ => InferenceSession_create onnx (MODEL_PATH rt) None
          end in
        match created with
        | Throw _ => (false, this)
        | Ok s =>
            let this := set_session s this in
            match s with
            | None => (false, this)
            | Some _ => (true, set_isModelLoaded true this)
            end
        end
    end.

(** ** The speed control of the application *)

(** The literals [0.5] and [2.0]. *)
Definition number_half : JS.number := S754_finite false 4503599627370496 (-53).
Definition number_two : JS.number := S754_finite false 4503599627370496 (-51).

(** [adjustSpeed(newSpeed)]: the value passed to [setSpeed],
    [Math.max(0.5, Math.min(2.0, newSpeed))]. *)
Definition adjustSpeed (newSpeed : JS.number) : JS.number :=
  JS.Math_max number_half (JS.Math_min number_two newSpeed).
(** * Facts about the floating-point specification *)

Section FloatFacts.
Variables prec emax : Z.

Lemma digits2_pos_size m : digits2_pos m = Pos.size m.
Proof. induction m; simpl; congruence. Qed.

Lemma digits2_pos_log2 m : Zpos (digits2_pos m) = Z.log2 (Zpos m) + 1.
Proof.
  rewrite digits2_pos_size. destruct m; simpl; lia.
Qed.

Lemma digits2_pos_bounds m :
  2 ^ (Zpos (digits2_pos m) - 1) <= Zpos m < 2 ^ Zpos (digits2_pos m).
Proof.
  rewrite digits2_pos_log2.
  replace (Z.log2 (Zpos m) + 1 - 1) with (Z.log2 (Zpos m)) by lia.
  replace (Z.log2 (Zpos m) + 1) with (Z.succ (Z.log2 (Zpos m))) by lia.
  apply Z.log2_spec. lia.
Qed.

Lemma digits2_pos_unique m d :
  2 ^ (d - 1) <= Zpos m < 2 ^ d -> Zpos (digits2_pos m) = d.
Proof.
  intros H. rewrite digits2_pos_log2.
  assert (0 <= d - 1).
  { destruct (Z.le_gt_cases 0 (d - 1)) as [|Hn]; [done|].
    destruct (Z.eq_dec d 0) as [->|]; [simpl in H; lia|].
    rewrite (Z.pow_neg_r 2 d) in H by lia. lia. }
  rewrite (Z.log2_unique (Zpos m) (d - 1)); [lia | lia |].
  replace (Z.succ (d - 1)) with d by lia. done.
Qed.

Lemma digits2_pos_shift m (p : positive) n :
  0 <= n -> Zpos p = Zpos m * 2 ^ n ->
  Zpos (digits2_pos p) = Zpos (digits2_pos m) + n.
Proof.
  intros Hn Hp. apply digits2_pos_unique. rewrite Hp.
  pose proof (digits2_pos_bounds m) as [Hl Hu].
  pose proof (Pos2Z.is_pos (digits2_pos m)).
  replace (Zpos (digits2_pos m) + n - 1) with ((Zpos (digits2_pos m) - 1) + n) by lia.
  rewrite !Z.pow_add_r by lia.
  assert (0 < 2 ^ n) by (apply Z.pow_pos_nonneg; lia).
  split; nia.
Qed.

Lemma iter_xO_spec m d : Zpos (Pos.iter xO m d) = Zpos m * 2 ^ Zpos d.
Proof.
  induction d as [|d IH] using Pos.peano_ind.
  - simpl. lia.
  - rewrite Pos.iter_succ, Pos2Z.inj_xO, IH, Pos2Z.inj_succ, Z.pow_succ_r by lia.
    ring.
Qed.

Lemma shr_1_even K :
  0 <= K ->
  shr_1 {| shr_m := 2 * K; shr_r := false; shr_s := false |}
  = {| shr_m := K; shr_r := false; shr_s := false |}.
Proof. intros H. destruct K; [done | done | lia]. Qed.

Lemma pow2_xO p : 2 ^ Zpos p~0 = 2 ^ Zpos p * 2 ^ Zpos p.
Proof. rewrite <- Z.pow_add_r by lia. f_equal. lia. Qed.

Lemma pow2_xI p : 2 ^ Zpos p~1 = 2 * (2 ^ Zpos p * 2 ^ Zpos p).
Proof.
  rewrite <- Z.pow_add_r, <- Z.pow_succ_r by lia. f_equal. lia.
Qed.

Lemma iter_pos_shr_1_exact p : forall K,
  0 <= K ->
  SpecFloat.iter_pos shr_1 p
    {| shr_m := K * 2 ^ Zpos p; shr_r := false; shr_s := false |}
  = {| shr_m := K; shr_r := false; shr_s := false |}.
Proof.
  induction p as [p IH | p IH |]; intros K HK; cbn [SpecFloat.iter_pos].
  - assert (0 < 2 ^ Zpos p) by (apply Z.pow_pos_nonneg; lia).
    replace (K * 2 ^ Zpos p~1) with (2 * ((K * 2 ^ Zpos p) * 2 ^ Zpos p))
      by (rewrite pow2_xI; ring).
    rewrite shr_1_even by nia.
    rewrite IH by nia. by apply IH.
  - assert (0 < 2 ^ Zpos p) by (apply Z.pow_pos_nonneg; lia).
    replace (K * 2 ^ Zpos p~0) with ((K * 2 ^ Zpos p) * 2 ^ Zpos p)
      by (rewrite pow2_xO; ring).
    rewrite IH by nia. by apply IH.
  - replace (K * 2 ^ 1) with (2 * K) by (rewrite Z.pow_1_r; ring).
    by apply shr_1_even.
Qed.

Lemma shr_exact K E n :
  0 <= K -> 0 <= n ->
  shr {| shr_m := K * 2 ^ n; shr_r := false; shr_s := false |} E n
  = ({| shr_m := K; shr_r := false; shr_s := false |}, E + n).
Proof.
  intros HK Hn. destruct n as [|p|p]; [| |lia].
  - simpl. rewrite Z.mul_1_r, Z.add_0_r. done.
  - unfold shr. by rewrite iter_pos_shr_1_exact.
Qed.

(** Rounding a mantissa whose discarded bits are all zero is exact. *)
Lemma binary_round_aux_exact sx (K : positive) n E :
  0 <= n ->
  canonical_mantissa prec emax K (E + n) = true ->
  E + n <= emax - prec ->
  binary_round_aux prec emax sx (Zpos K * 2 ^ n) E loc_Exact
  = S754_finite sx K (E + n).
Proof.
  intros Hn Hcan Hmax.
  unfold canonical_mantissa in Hcan. apply Z.eqb_eq in Hcan.
  assert (0 < 2 ^ n) by (apply Z.pow_pos_nonneg; lia).
  destruct (Zpos K * 2 ^ n) as [|M|M] eqn:HM; [lia | | lia].
  assert (Hd : Zpos (digits2_pos M) = Zpos (digits2_pos K) + n)
    by (by apply digits2_pos_shift).
  unfold binary_round_aux, shr_fexp. simpl Zdigits2. rewrite Hd.
  replace (Zpos (digits2_pos K) + n + E) with (Zpos (digits2_pos K) + (E + n)) by lia.
  rewrite Hcan. replace (E + n - E) with n by lia.
  simpl shr_record_of_loc. rewrite <- HM, shr_exact by lia.
  simpl. rewrite Hcan, Z.sub_diag. simpl.
  apply Z.leb_le in Hmax. by rewrite Hmax.
Qed.

(** [binary_round] of a mantissa that fits: only a left alignment. *)
Lemma binary_round_exact sx m e t :
  t = fexp prec emax (Zpos (digits2_pos m) + e) ->
  t <= e -> t <= emax - prec ->
  exists m', binary_round prec emax sx m e = S754_finite sx m' t
             /\ Zpos m' = Zpos m * 2 ^ (e - t)
             /\ canonical_mantissa prec emax m' t = true.
Proof.
  intros Ht Hte Hmax. unfold binary_round, shl_align. rewrite <- Ht.
  assert (Hcan: forall m', Zpos m' = Zpos m * 2 ^ (e - t) ->
            canonical_mantissa prec emax m' t = true).
  { intros m' Hm'. unfold canonical_mantissa. apply Z.eqb_eq.
    rewrite (digits2_pos_shift m m' (e - t)) by (lia || done).
    replace (Zpos (digits2_pos m) + (e - t) + t)
      with (Zpos (digits2_pos m) + e) by lia.
    done. }
  assert (Hx : forall m', Zpos m' = Zpos m * 2 ^ (e - t) ->
            binary_round_aux prec emax sx (Zpos m') t loc_Exact
            = S754_finite sx m' t).
  { intros m' Hm'.
    pose proof (binary_round_aux_exact sx m' 0 t) as Hx.
    rewrite Z.pow_0_r, Z.mul_1_r, Z.add_0_r in Hx.
    apply Hx; [lia | by apply Hcan | lia]. }
  destruct (t - e) as [|d|d] eqn:Hd; [| lia |].
  - assert (e = t) as -> by lia. exists m.
    assert (Hm : Zpos m = Zpos m * 2 ^ (t - t))
      by (rewrite Z.sub_diag; lia).
    auto.
  - exists (Pos.iter xO m d).
    assert (Hm : Zpos (Pos.iter xO m d) = Zpos m * 2 ^ (e - t))
      by (rewrite iter_xO_spec; f_equal; f_equal; lia).
    auto.
Qed.
End FloatFacts.

(** * Facts about JavaScript numbers *)

Section NumberFacts.
Import JS.

Lemma fexp64 k : -1074 <= k - 53 -> fexp prec64 emax64 k = k - 53.
Proof. unfold fexp, emin, prec64, emax64. lia. Qed.

Lemma digits2_pos_le m n :
  0 <= n -> Zpos m < 2 ^ n -> Zpos (digits2_pos m) <= n.
Proof.
  intros Hn Hm. pose proof (digits2_pos_bounds m) as [Hl _].
  destruct (Z.le_gt_cases (Zpos (digits2_pos m)) n) as [|Hgt]; [done|].
  assert (2 ^ n <= 2 ^ (Zpos (digits2_pos m) - 1))
    by (apply Z.pow_le_mono_r; lia).
  lia.
Qed.

(** Integers below 2^53 are Numbers: the literal is the integer, left
    aligned on 53 bits. *)
Lemma number_of_Z_pos (z : positive) :
  Zpos z < 2 ^ 53 ->
  exists m', Zpos m' = Zpos z * 2 ^ (53 - Zpos (digits2_pos z))
    /\ Zpos (digits2_pos m') = 53
    /\ forall sx, binary_round prec64 emax64 sx z 0
                  = S754_finite sx m' (Zpos (digits2_pos z) - 53).
Proof.
  intros Hz.
  pose proof (digits2_pos_le z 53 ltac:(lia) Hz) as Hd.
  pose proof (Pos2Z.is_pos (digits2_pos z)) as Hd0.
  set (d := Zpos (digits2_pos z)) in *.
  destruct (binary_round_exact prec64 emax64 false z 0 (d - 53))
    as (m' & _ & Hm' & _).
  { rewrite fexp64; fold d; lia. }
  { lia. }
  { unfold emax64, prec64. lia. }
  exists m'. replace (0 - (d - 53)) with (53 - d) in Hm' by lia.
  split; [done|]. split.
  { rewrite (digits2_pos_shift z m' (53 - d)) by (lia || done). fold d. lia. }
  intros sx.
  destruct (binary_round_exact prec64 emax64 sx z 0 (d - 53))
    as (m'' & Hr & Hm'' & _).
  { rewrite fexp64; fold d; lia. }
  { lia. }
  { unfold emax64, prec64. lia. }
  rewrite Hr. f_equal.
  replace (0 - (d - 53)) with (53 - d) in Hm'' by lia. lia.
Qed.

Lemma truncate_aligned sx (m' : positive) z d :
  0 < d <= 53 -> Zpos m' = z * 2 ^ (53 - d) ->
  truncate (S754_finite sx m' (d - 53)) = cond_Zopp sx z.
Proof.
  intros Hd Hm'. unfold truncate. f_equal.
  destruct (d - 53) as [|k|k] eqn:Hk; [| lia |].
  - replace (53 - d) with 0 in Hm' by lia. rewrite Hm'. simpl. lia.
  - replace (53 - d) with (Zpos k) in Hm' by lia. rewrite Hm'.
    apply Z.div_mul. pose proof (Z.pow_pos_nonneg 2 (Zpos k)). lia.
Qed.

Lemma truncate_number_of_Z z :
  Z.abs z < 2 ^ 53 -> truncate (number_of_Z z) = z.
Proof.
  intros Hz. destruct z as [|p|p]; [done | |].
  - destruct (number_of_Z_pos p) as (m' & Hm' & _ & Hr); [done|].
    unfold number_of_Z, binary_normalize. rewrite Hr.
    pose proof (digits2_pos_le p 53 ltac:(lia) ltac:(done)).
    rewrite (truncate_aligned false m' (Zpos p)); [done | lia | done].
  - destruct (number_of_Z_pos p) as (m' & Hm' & _ & Hr); [done|].
    unfold number_of_Z, binary_normalize. rewrite Hr.
    pose proof (digits2_pos_le p 53 ltac:(lia) ltac:(done)).
    rewrite (truncate_aligned true m' (Zpos p)); [done | lia | done].
Qed.

Lemma digits2_pos_mono a b :
  Zpos (digits2_pos a) < Zpos (digits2_pos b) -> Zpos a < Zpos b.
Proof.
  intros H. pose proof (digits2_pos_bounds a) as [_ Ha].
  pose proof (digits2_pos_bounds b) as [Hb _].
  assert (2 ^ Zpos (digits2_pos a) <= 2 ^ (Zpos (digits2_pos b) - 1))
    by (apply Z.pow_le_mono_r; lia).
  lia.
Qed.

(** Comparison of aligned positive integers is comparison of the
    integers. *)
Lemma compare_aligned (a b ma mb : positive) :
  Zpos a < 2 ^ 53 -> Zpos b < 2 ^ 53 ->
  Zpos ma = Zpos a * 2 ^ (53 - Zpos (digits2_pos a)) ->
  Zpos mb = Zpos b * 2 ^ (53 - Zpos (digits2_pos b)) ->
  match Zpos (digits2_pos a) - 53 ?= Zpos (digits2_pos b) - 53 with
  | Lt => Lt
  | Gt => Gt
  | Eq => Pos.compare_cont Eq ma mb
  end = (Zpos a ?= Zpos b).
Proof.
  intros Ha Hb Hma Hmb. symmetry.
  destruct (Z.compare_spec (Zpos (digits2_pos a) - 53) (Zpos (digits2_pos b) - 53))
    as [Heq | Hlt | Hgt].
  - assert (Hd : Zpos (digits2_pos a) = Zpos (digits2_pos b)) by lia.
    rewrite Hd in Hma.
    pose proof (digits2_pos_le b 53 ltac:(lia) Hb).
    assert (0 < 2 ^ (53 - Zpos (digits2_pos b)))
      by (apply Z.pow_pos_nonneg; lia).
    change (Pos.compare_cont Eq ma mb) with (Zpos ma ?= Zpos mb).
    rewrite Hma, Hmb.
    destruct (Z.compare_spec (Zpos a) (Zpos b)) as [E|L|G].
    + rewrite E. symmetry. apply Z.compare_refl.
    + symmetry. apply Z.compare_lt_iff. nia.
    + symmetry. apply Z.compare_gt_iff. nia.
  - apply Z.compare_lt_iff. apply digits2_pos_mono. lia.
  - apply Z.compare_gt_iff. apply digits2_pos_mono. lia.
Qed.

Lemma compare_number_of_Z a b :
  Z.abs a < 2 ^ 53 -> Z.abs b < 2 ^ 53 ->
  SFcompare (number_of_Z a) (number_of_Z b) = Some (a ?= b).
Proof.
  intros Ha Hb. unfold number_of_Z, binary_normalize.
  destruct a as [|a|a], b as [|b|b];
    try (destruct (number_of_Z_pos a) as (ma & Hma & _ & Hra); [done|]);
    try (destruct (number_of_Z_pos b) as (mb & Hmb & _ & Hrb); [done|]);
    rewrite ?Hra, ?Hrb; try done.
  - simpl. f_equal. by apply compare_aligned.
  - simpl. f_equal.
    pose proof (compare_aligned a b ma mb Ha Hb Hma Hmb) as Hc.
    transitivity (CompOpp (Zpos a ?= Zpos b)); [|done].
    rewrite <- Hc.
    by destruct (Zpos (digits2_pos a) - 53 ?= Zpos (digits2_pos b) - 53).
Qed.
End NumberFacts.

(** * The sample conversion *)

Section PcmFacts.
Import JS.

Lemma wrap_signed_16_id z : -32768 <= z <= 32767 -> wrap_signed 16 z = z.
Proof.
  intros Hz. unfold wrap_signed.
  change (2 ^ 16) with 65536. change (2 ^ (16 - 1)) with 32768.
  destruct (Z.le_gt_cases 0 z).
  - rewrite Z.mod_small by lia.
    destruct (Z.leb_spec 32768 z); lia.
  - replace (z mod 65536) with (z + 65536).
    + destruct (Z.leb_spec 32768 (z + 65536)); lia.
    + apply (Z.mod_unique_pos z 65536 (-1)); lia.
Qed.

Lemma Math_min_number_of_Z a b :
  Z.abs a < 2 ^ 53 -> Z.abs b < 2 ^ 53 ->
  Math_min (number_of_Z a) (number_of_Z b) = number_of_Z (Z.min a b).
Proof.
  intros Ha Hb. unfold Math_min. rewrite compare_number_of_Z by done.
  unfold Z.min. destruct (Z.compare_spec a b) as [->|?|?]; try done.
  destruct b; try done; unfold number_of_Z, binary_normalize.
  - by destruct (number_of_Z_pos p ltac:(done)) as (? & _ & _ & ->).
  - by destruct (number_of_Z_pos p ltac:(done)) as (? & _ & _ & ->).
Qed.

Lemma Math_max_number_of_Z a b :
  Z.abs a < 2 ^ 53 -> Z.abs b < 2 ^ 53 ->
  Math_max (number_of_Z a) (number_of_Z b) = number_of_Z (Z.max a b).
Proof.
  intros Ha Hb. unfold Math_max. rewrite compare_number_of_Z by done.
  unfold Z.max. destruct (Z.compare_spec a b) as [->|?|?]; try done.
  destruct b; try done; unfold number_of_Z, binary_normalize.
  - by destruct (number_of_Z_pos p ltac:(done)) as (? & _ & _ & ->).
  - by destruct (number_of_Z_pos p ltac:(done)) as (? & _ & _ & ->).
Qed.

Lemma clamp_range v : -32768 <= clamp v (-32768) 32767 <= 32767.
Proof. unfold clamp. lia. Qed.

(** Clamping and storing an integer-valued Number below 2^53. *)
Lemma clamp_store_integer z :
  Z.abs z < 2 ^ 53 ->
  ToInt16 (Math_max (number_of_Z (-32768))
             (Math_min (number_of_Z 32767) (number_of_Z z)))
  = clamp z (-32768) 32767.
Proof.
  intros Hz.
  assert (2 ^ 53 = 9007199254740992) as E53 by done.
  rewrite Math_min_number_of_Z, Math_max_number_of_Z by lia.
  unfold ToInt16. rewrite truncate_number_of_Z by lia.
  apply wrap_signed_16_id, clamp_range.
Qed.

Lemma clamp_store_normal sg K E :
  Zpos (digits2_pos K) = 53 ->
  ToInt16 (Math_max (number_of_Z (-32768))
             (Math_min (number_of_Z 32767)
                (Math_floor (S754_finite sg K E))))
  = clamp (dyadic_floor (cond_Zopp sg (Zpos K)) E) (-32768) 32767.
Proof.
  intros Hd. pose proof (digits2_pos_bounds K) as [Hl Hu].
  rewrite Hd in Hl, Hu.
  change (2 ^ (53 - 1)) with 4503599627370496 in Hl.
  change (2 ^ 53) with 9007199254740992 in Hu.
  assert (Hbig : forall E', 0 <= E' ->
    ToInt16 (Math_max (number_of_Z (-32768))
               (Math_min (number_of_Z 32767) (S754_finite sg K E')))
    = clamp (cond_Zopp sg (Zpos K) * 2 ^ E') (-32768) 32767).
  { intros E' HE'.
    assert (0 < 2 ^ E') by (apply Z.pow_pos_nonneg; lia).
    assert (Hc1 : (-38 ?= E') = Lt) by (apply Z.compare_lt_iff; lia).
    assert (Hc2 : (-37 ?= E') = Lt) by (apply Z.compare_lt_iff; lia).
    change (number_of_Z 32767) with (S754_finite false 9006924376834048 (-38)).
    change (number_of_Z (-32768)) with (S754_finite true 4503599627370496 (-37)).
    destruct sg; unfold clamp, cond_Zopp.
    - unfold Math_min; cbn [SFcompare].
      unfold Math_max; cbn [SFcompare]. rewrite Hc2.
      transitivity (-32768); [done | nia].
    - unfold Math_min; cbn [SFcompare]. rewrite Hc1.
      transitivity 32767; [done | nia]. }
  destruct E as [|p|k].
  - apply (Hbig 0). lia.
  - apply (Hbig (Zpos p)). lia.
  - unfold Math_floor, dyadic_floor. apply clamp_store_integer.
    assert (0 < 2 ^ Zpos k) by (apply Z.pow_pos_nonneg; lia).
    change (2 ^ 53) with 9007199254740992.
    pose proof (Z.div_mod (cond_Zopp sg (Zpos K)) (2 ^ Zpos k) ltac:(lia)).
    pose proof (Z.mod_pos_bound (cond_Zopp sg (Zpos K)) (2 ^ Zpos k) ltac:(lia)).
    destruct sg; unfold cond_Zopp in *; nia.
Qed.

Lemma dyadic_floor_shift z e j :
  0 <= j -> dyadic_floor (z * 2 ^ j) (e - j) = dyadic_floor z e.
Proof.
  intros Hj. unfold dyadic_floor.
  assert (0 < 2 ^ j) by (apply Z.pow_pos_nonneg; lia).
  destruct (e - j) as [|p|p] eqn:Hej, e as [|q|q]; try lia.
  - replace j with 0 by lia. rewrite Z.pow_0_r. ring.
  - replace j with (Zpos q) by lia. ring.
  - rewrite <- Z.mul_assoc, <- Z.pow_add_r by lia. do 2 f_equal. lia.
  - replace (Zpos p) with j by lia. rewrite Z.mul_1_r. by apply Z.div_mul, Z.neq_sym, Z.lt_neq.
  - replace j with (Zpos q + Zpos p) by lia.
    rewrite Z.pow_add_r, Z.mul_assoc by lia.
    apply Z.div_mul. pose proof (Z.pow_pos_nonneg 2 (Zpos p)). lia.
  - replace (Zpos p) with (j + Zpos q) by lia.
    rewrite Z.pow_add_r by lia.
    rewrite (Z.mul_comm (2 ^ j)).
    apply Z.div_mul_cancel_r; pose proof (Z.pow_pos_nonneg 2 (Zpos q)); lia.
Qed.
End PcmFacts.

Section SampleFacts.
Import JS.

Lemma float32_bounds m e :
  bounded prec32 emax32 m e = true ->
  Zpos (digits2_pos m) <= 24 /\ -149 <= e <= 104.
Proof.
  unfold bounded, canonical_mantissa, fexp, emin, prec32, emax32.
  intros [Hc He]%andb_prop. apply Z.eqb_eq in Hc. apply Z.leb_le in He. lia.
Qed.

(** A binary32 value read as a Number keeps its value; the mantissa is
    left aligned on 53 bits. *)
Lemma f32_to_number_finite sg m e :
  bounded prec32 emax32 m e = true ->
  exists m1, f32_to_number (S754_finite sg m e)
             = S754_finite sg m1 (Zpos (digits2_pos m) + e - 53)
    /\ Zpos m1 = Zpos m * 2 ^ (53 - Zpos (digits2_pos m)).
Proof.
  intros Hb. apply float32_bounds in Hb as [Hd He].
  pose proof (Pos2Z.is_pos (digits2_pos m)).
  destruct (binary_round_exact prec64 emax64 sg m e
              (Zpos (digits2_pos m) + e - 53)) as (m1 & Hr & Hm1 & _).
  { rewrite fexp64; lia. }
  { lia. }
  { unfold emax64, prec64. lia. }
  exists m1. split; [done|]. rewrite Hm1. do 2 f_equal. lia.
Qed.

(** The product of a binary32 sample by 32767 is exact in binary64: it
    has at most 39 significant bits. *)
Lemma mul_32767_exact sg m e :
  bounded prec32 emax32 m e = true ->
  exists K j,
    mul (f32_to_number (S754_finite sg m e)) (number_of_Z 32767)
    = S754_finite sg K (e - j)
    /\ Zpos (digits2_pos K) = 53
    /\ 0 <= j
    /\ Zpos K = Zpos m * 32767 * 2 ^ j.
Proof.
  intros Hb. destruct (f32_to_number_finite sg m e Hb) as (m1 & -> & Hm1).
  apply float32_bounds in Hb as [Hd He].
  pose proof (Pos2Z.is_pos (digits2_pos m)) as Hd0.
  set (d := Zpos (digits2_pos m)) in *.
  set (P := (m * 32767)%positive).
  set (D := Zpos (digits2_pos P)).
  pose proof (digits2_pos_bounds m) as [Hml Hmu]. fold d in Hml, Hmu.
  assert (HP : Zpos P = Zpos m * 32767) by (unfold P; lia).
  assert (HDd : d <= D).
  { destruct (Z.le_gt_cases d D) as [|Hlt]; [done|].
    assert (Zpos P < Zpos m) by (apply digits2_pos_mono; fold d D; lia). lia. }
  assert (HD : D <= 39).
  { apply digits2_pos_le; [lia|]. rewrite HP.
    assert (2 ^ d <= 2 ^ 24) by (apply Z.pow_le_mono_r; lia).
    change (2 ^ 39) with (2 ^ 24 * 32768). lia. }
  assert (0 < 2 ^ (53 - D)) by (apply Z.pow_pos_nonneg; lia).
  destruct (Zpos P * 2 ^ (53 - D)) as [|K|K] eqn:HK; [lia | | lia].
  assert (HdK : Zpos (digits2_pos K) = 53).
  { rewrite (digits2_pos_shift P K (53 - D)) by (lia || done). fold D. lia. }
  exists K, (53 - D). split; [|split; [done | split; [lia | by rewrite <- HK, HP]]].
  change (number_of_Z 32767) with (S754_finite false 9006924376834048 (-38)).
  unfold mul, SFmul. rewrite xorb_false_r.
  pose proof (binary_round_aux_exact prec64 emax64 sg K (D - d + 38)
                (d + e - 53 + -38)) as Hx.
  replace (d + e - 53 + -38 + (D - d + 38)) with (e - (53 - D)) in Hx by lia.
  rewrite <- Hx.
  - f_equal. rewrite Pos2Z.inj_mul, Hm1, <- HK, HP.
    change 9006924376834048 with (32767 * 2 ^ 38).
    replace (2 ^ (D - d + 38)) with (2 ^ (D - d) * 2 ^ 38)
      by (rewrite <- Z.pow_add_r by lia; done).
    replace (2 ^ (53 - d)) with (2 ^ (53 - D) * 2 ^ (D - d))
      by (rewrite <- Z.pow_add_r by lia; f_equal; lia).
    ring.
  - lia.
  - unfold canonical_mantissa. apply Z.eqb_eq. rewrite HdK, fexp64; lia.
  - unfold emax64, prec64. lia.
Qed.

Lemma Qpower_2_pos (k : positive) : ((2 # 1) ^ Zpos k == inject_Z (2 ^ Zpos k))%Q.
Proof. symmetry. by apply Zpower_Qpower. Qed.

(** The rational floor of [m * 2^e * 32767]. *)
Lemma Qfloor_F2Q_scaled sg m e :
  Qfloor (F2Q (S754_finite sg m e) * (32767 # 1))
  = dyadic_floor (cond_Zopp sg (Zpos m) * 32767) e.
Proof.
  unfold F2Q, dyadic_floor. set (z := cond_Zopp sg (Zpos m)).
  destruct e as [|p|k].
  - transitivity (Qfloor (inject_Z (z * 32767))).
    + apply Qfloor_comp. rewrite inject_Z_mult. simpl Qpower. ring.
    + rewrite Qfloor_Z. change (2 ^ 0) with 1. ring.
  - transitivity (Qfloor (inject_Z (z * 32767 * 2 ^ Zpos p))).
    + apply Qfloor_comp. rewrite Qpower_2_pos, !inject_Z_mult.
      change (32767 # 1)%Q with (inject_Z 32767). ring.
    + apply Qfloor_Z.
  - assert (H2 : 0 < 2 ^ Zpos k) by (apply Z.pow_pos_nonneg; lia).
    destruct (2 ^ Zpos k) as [|q|q] eqn:Hq; [lia | | lia].
    transitivity (Qfloor (z * 32767 # q)).
    + apply Qfloor_comp.
      change (Z.neg k) with (- Zpos k). rewrite Qpower_opp, Qpower_2_pos, Hq.
      unfold Qeq, Qmult, Qinv, inject_Z; simpl Qnum; simpl Qden. 
      rewrite Pos.mul_1_l, Pos.mul_1_r. ring.
    + done.
Qed.

(** On finite samples the code computes the specified formula. *)
Lemma floatToPcm_finite sg m e :
  bounded prec32 emax32 m e = true ->
  floatToPcm (S754_finite sg m e) = pcm_spec (F2Q (S754_finite sg m e)).
Proof.
  intros Hb. unfold floatToPcm, pcm_of_number, pcm_spec.
  destruct (mul_32767_exact sg m e Hb) as (K & j & -> & HdK & Hj & HK).
  rewrite clamp_store_normal by done.
  rewrite Qfloor_F2Q_scaled. f_equal.
  rewrite <- (dyadic_floor_shift (cond_Zopp sg (Zpos m) * 32767) e j) by done.
  f_equal. destruct sg; unfold cond_Zopp; lia.
Qed.

Lemma floatToPcm_zero sg : floatToPcm (S754_zero sg) = 0.
Proof. by destruct sg. Qed.

Lemma floatToPcm_range s : -32768 <= floatToPcm s <= 32767.
Proof.
  unfold floatToPcm, pcm_of_number, ToInt16, wrap_signed.
  match goal with |- context [?z mod 2 ^ 16] =>
    pose proof (Z.mod_pos_bound z (2 ^ 16) ltac:(done)) as Hm;
    set (r := z mod 2 ^ 16) in *
  end.
  change (2 ^ 16) with 65536 in *. change (2 ^ (16 - 1)) with 32768.
  destruct (Z.leb_spec 32768 r); lia.
Qed.
End SampleFacts.

(** * The WAV encoder *)

Section DataViewFacts.
Import DataView.

Lemma in_bounds_intro (b : buffer) off size :
  0 <= off -> off + size <= Z.of_nat (length b) -> in_bounds b off size = true.
Proof.
  intros H0 H1. unfold in_bounds. apply andb_true_intro.
  split; by apply Z.leb_le.
Qed.

Lemma mod_pow16_byte0 v : (v mod 2 ^ 16) mod 256 = v mod 256.
Proof.
  change (2 ^ 16) with (256 * 256).
  rewrite Z.rem_mul_r by lia.
  rewrite (Z.mul_comm 256 ((v / 256) mod 256)), Z.mod_add by lia.
  apply Z.mod_mod. lia.
Qed.

Lemma mod_pow16_byte1 v : (v mod 2 ^ 16) / 256 = (v / 256) mod 256.
Proof.
  change (2 ^ 16) with (256 * 256).
  rewrite Z.rem_mul_r by lia.
  rewrite Z.add_comm, (Z.mul_comm 256 ((v / 256) mod 256)), Z.div_add_l by lia.
  rewrite (Z.div_small (v mod 256)) by (apply Z.mod_pos_bound; lia). lia.
Qed.

(** The bytes [setUint32] stores are the four little-endian bytes. *)
Lemma mod_pow32_bytes v :
  let w := v mod 2 ^ 32 in
  [w mod 256; (w / 256) mod 256; (w / 65536) mod 256; w / 16777216] = le32 v.
Proof.
  intros w. unfold le32.
  pose proof (Z.div_mod v (2 ^ 32) ltac:(done)) as Hv. fold w in Hv.
  pose proof (Z.mod_pos_bound v (2 ^ 32) ltac:(done)) as Hw. fold w in Hw.
  set (q := v / 2 ^ 32) in *. change (2 ^ 32) with 4294967296 in *.
  assert (E0 : v mod 256 = w mod 256).
  { rewrite Hv. replace (4294967296 * q + w) with (w + (q * 16777216) * 256) by ring.
    by rewrite Z.mod_add. }
  assert (E1 : (v / 256) mod 256 = (w / 256) mod 256).
  { rewrite Hv. replace (4294967296 * q + w) with ((q * 16777216) * 256 + w) by ring.
    rewrite Z.div_add_l by lia.
    replace (q * 16777216 + w / 256) with (w / 256 + (q * 65536) * 256) by ring.
    by rewrite Z.mod_add. }
  assert (E2 : (v / 65536) mod 256 = (w / 65536) mod 256).
  { rewrite Hv. replace (4294967296 * q + w) with ((q * 65536) * 65536 + w) by ring.
    rewrite Z.div_add_l by lia.
    replace (q * 65536 + w / 65536) with (w / 65536 + (q * 256) * 256) by ring.
    by rewrite Z.mod_add. }
  assert (E3 : (v / 16777216) mod 256 = w / 16777216).
  { rewrite Hv. replace (4294967296 * q + w) with ((q * 256) * 16777216 + w) by ring.
    rewrite Z.div_add_l by lia.
    replace (q * 256 + w / 16777216) with (w / 16777216 + q * 256) by ring.
    rewrite Z.mod_add by lia. apply Z.mod_small.
    split; [apply Z.div_pos; lia | apply Z.div_lt_upper_bound; lia]. }
  by rewrite E0, E1, E2, E3.
Qed.

Lemma setUint8_frame (pre post : buffer) x off v :
  off = Z.of_nat (length pre) ->
  setUint8 (pre ++ x :: post) off v = Ok (pre ++ v mod 256 :: post).
Proof.
  intros ->. unfold setUint8.
  rewrite in_bounds_intro by (rewrite ?length_app; simpl; lia).
  rewrite Nat2Z.id. f_equal.
  rewrite insert_app_r_alt, Nat.sub_diag by lia. done.
Qed.

Lemma setUint16_frame (pre post : buffer) x0 x1 off v :
  off = Z.of_nat (length pre) ->
  setUint16 (pre ++ x0 :: x1 :: post) off v true = Ok (pre ++ le16 v ++ post).
Proof.
  intros ->. unfold setUint16.
  rewrite in_bounds_intro by (rewrite ?length_app; simpl; lia).
  rewrite Nat2Z.id. f_equal.
  rewrite !insert_app_r_alt by lia.
  replace (S (length pre) - length pre)%nat with 1%nat by lia.
  rewrite Nat.sub_diag. simpl.
  by rewrite mod_pow16_byte0, mod_pow16_byte1.
Qed.

Lemma setInt16_frame (pre post : buffer) x0 x1 off v :
  off = Z.of_nat (length pre) ->
  setInt16 (pre ++ x0 :: x1 :: post) off v true = Ok (pre ++ le16 v ++ post).
Proof. apply setUint16_frame. Qed.

Lemma setUint32_frame (pre post : buffer) x0 x1 x2 x3 off v :
  off = Z.of_nat (length pre) ->
  setUint32 (pre ++ x0 :: x1 :: x2 :: x3 :: post) off v true
  = Ok (pre ++ le32 v ++ post).
Proof.
  intros ->. unfold setUint32.
  rewrite in_bounds_intro by (rewrite ?length_app; simpl; lia).
  rewrite Nat2Z.id. f_equal.
  rewrite !insert_app_r_alt by lia.
  replace (S (S (S (length pre))) - length pre)%nat with 3%nat by lia.
  replace (S (S (length pre)) - length pre)%nat with 2%nat by lia.
  replace (S (length pre) - length pre)%nat with 1%nat by lia.
  rewrite Nat.sub_diag. cbn [list_insert insert].
  rewrite <- mod_pow32_bytes. done.
Qed.

(** Out of range the setters raise and write nothing. *)
Lemma setUint8_out_of_range (b : buffer) off v :
  Z.of_nat (length b) < off + 1 -> setUint8 b off v = Throw RangeError.
Proof.
  intros H. unfold setUint8, in_bounds.
  destruct (Z.leb_spec (off + 1) (Z.of_nat (length b))); [lia|].
  by rewrite andb_false_r.
Qed.
End DataViewFacts.

Section LoopFacts.

(** The conversion loop fills the [Int16Array] cell by cell. *)
Lemma pcm_loop (f : nat -> Z) : forall count start (done_ : list Z),
  length done_ = start ->
  for_range start count (fun i a => Ok (<[i := f i]> a))
    (done_ ++ replicate count 0)
  = Ok (done_ ++ map f (seq start count)).
Proof.
  induction count as [|count IH]; intros start done_ Hlen; [done|].
  cbn [for_range replicate seq map]. cbn [mbind result_bind].
  rewrite insert_app_r_alt, Hlen, Nat.sub_diag by lia.
  cbn [insert list_insert].
  rewrite (cons_middle (f start)), !app_assoc.
  rewrite IH by (rewrite length_app; simpl; lia).
  by rewrite <- app_assoc.
Qed.

Lemma map_read_float32 (floatArray : list spec_float) :
  map (fun i => pcm_of_number (read_float32 floatArray i))
      (seq 0 (length floatArray))
  = map floatToPcm floatArray.
Proof.
  apply list_eq. intros i. rewrite !list_lookup_fmap.
  destruct (decide (i < length floatArray)%nat) as [Hi|Hi].
  - rewrite lookup_seq_lt by done. simpl.
    destruct (lookup_lt_is_Some_2 floatArray i Hi) as [x Hx].
    unfold read_float32. by rewrite Hx.
  - rewrite lookup_seq_ge by lia.
    by rewrite (lookup_ge_None_2 floatArray i) by lia.
Qed.

(** The data loop writes the samples after the header, two bytes each. *)
Lemma data_loop (int16Array : list Z) : forall count start (pre : list Z),
  length pre = (44 + 2 * start)%nat ->
  (start + count)%nat = length int16Array ->
  for_range start count
    (fun i v => DataView.setInt16 v (44 + Z.of_nat i * 2)
                  (read_int16 int16Array i) true)
    (pre ++ replicate (2 * count) 0)
  = Ok (pre ++ flat_map le16 (drop start int16Array)).
Proof.
  induction count as [|count IH]; intros start pre Hpre Hlen.
  - rewrite drop_ge by lia. done.
  - cbn [for_range]. replace (2 * S count)%nat with (S (S (2 * count))) by lia.
    cbn [replicate].
    rewrite setInt16_frame by lia. cbn [mbind result_bind].
    destruct (lookup_lt_is_Some_2 int16Array start ltac:(lia)) as [v Hv].
    assert (Hr : read_int16 int16Array start = v)
      by (unfold read_int16; by rewrite Hv).
    rewrite Hr, (drop_S _ _ _ Hv). cbn [flat_map].
    rewrite !app_assoc.
    rewrite IH; [done | | lia].
    rewrite length_app. simpl. lia.
Qed.
End LoopFacts.

Section EncoderFacts.
Import DataView.

Lemma setUint8_app (b rest : buffer) off v (n : nat) :
  off = Z.of_nat n -> (n + 1 <= length b)%nat ->
  setUint8 (b ++ rest) off v = Ok (<[n := v mod 256]> b ++ rest).
Proof.
  intros -> Hn. unfold setUint8.
  rewrite in_bounds_intro by (rewrite ?length_app; lia).
  rewrite Nat2Z.id. f_equal. apply insert_app_l. lia.
Qed.

Lemma setUint16_app (b rest : buffer) off v (n : nat) :
  off = Z.of_nat n -> (n + 2 <= length b)%nat ->
  setUint16 (b ++ rest) off v true
  = Ok (<[S n := (v / 256) mod 256]> (<[n := v mod 256]> b) ++ rest).
Proof.
  intros -> Hn. unfold setUint16.
  rewrite in_bounds_intro by (rewrite ?length_app; lia).
  rewrite Nat2Z.id, mod_pow16_byte0, mod_pow16_byte1. f_equal.
  rewrite !insert_app_l by (rewrite ?length_insert; lia). done.
Qed.

Lemma setUint32_app (b rest : buffer) off v (n : nat) :
  off = Z.of_nat n -> (n + 4 <= length b)%nat ->
  setUint32 (b ++ rest) off v true
  = Ok (<[S (S (S n)) := (v / 16777216) mod 256]>
          (<[S (S n) := (v / 65536) mod 256]>
             (<[S n := (v / 256) mod 256]> (<[n := v mod 256]> b))) ++ rest).
Proof.
  intros -> Hn. unfold setUint32.
  rewrite in_bounds_intro by (rewrite ?length_app; lia).
  pose proof (mod_pow32_bytes v) as Hb. cbv zeta in Hb. unfold le32 in Hb.
  injection Hb as -> -> -> ->.
  rewrite Nat2Z.id. f_equal.
  rewrite !insert_app_l by (rewrite ?length_insert; lia). done.
Qed.

Ltac header_step :=
  lazymatch goal with
  | |- context [setUint8 (@app Z ?b ?rest) ?off ?v] =>
      let n := eval vm_compute in (Z.to_nat off) in
      rewrite (setUint8_app b rest off v n) by (done || (simpl; lia))
  | |- context [setUint16 (@app Z ?b ?rest) ?off ?v true] =>
      let n := eval vm_compute in (Z.to_nat off) in
      rewrite (setUint16_app b rest off v n) by (done || (simpl; lia))
  | |- context [setUint32 (@app Z ?b ?rest) ?off ?v true] =>
      let n := eval vm_compute in (Z.to_nat off) in
      rewrite (setUint32_app b rest off v n) by (done || (simpl; lia))
  end;
  cbn [mbind result_bind insert list_insert].

(** The encoder never raises, and its output is the header followed by
    the samples. *)
Lemma floatArrayToWav_bytes (floatArray : list spec_float) (sampleRate : Z) :
  _floatArrayToWav floatArray sampleRate
  = Ok (wav_header sampleRate (Z.of_nat (length floatArray) * 2)
        ++ flat_map le16 (map floatToPcm floatArray)).
Proof.
  unfold _floatArrayToWav.
  rewrite (pcm_loop _ (length floatArray) 0 []) by done.
  cbn [mbind result_bind app]. rewrite map_read_float32, length_map.
  set (pcm := map floatToPcm floatArray).
  set (n := length floatArray).
  unfold ArrayBuffer_new.
  replace (Z.to_nat (44 + Z.of_nat n * 2)) with (44 + 2 * n)%nat by lia.
  rewrite replicate_add. cbn [replicate].
  do 25 header_step.
  rewrite (data_loop pcm n 0) by (done || (unfold pcm; by rewrite length_map)).
  rewrite drop_0. done.
Qed.
End EncoderFacts.

(** * Tokenizer and style slice *)

Section TokenizerFacts.
Variable rt : Runtime.

(** The push loop appends the ids of the mapped characters, in order. *)
Lemma push_loop (chars : jsstring) : forall tokens : list Z,
  foldl (fun tokens char =>
           match VOCAB !! char with
           | Some id => tokens ++ [id]
           | None => tokens
           end) tokens chars
  = tokens ++ omap (fun char => VOCAB !! char) chars.
Proof.
  induction chars as [|c chars IH]; intros tokens;
    cbn [foldl omap list_omap].
  - by rewrite app_nil_r.
  - rewrite IH. destruct (VOCAB !! c); [by rewrite <- app_assoc | done].
Qed.

Lemma tokenize_eq (text : jsstring) :
  tokenize rt text
  = 0 :: omap (fun char => VOCAB !! char) (toLowerCase rt text) ++ [0].
Proof. unfold tokenize. by rewrite push_loop. Qed.

Lemma tokenize_length (text : jsstring) :
  length (tokenize rt text)
  = (2 + length (omap (fun char => VOCAB !! char) (toLowerCase rt text)))%nat.
Proof.
  rewrite tokenize_eq. cbn [length]. rewrite length_app. cbn [length]. lia.
Qed.

Lemma omap_unmapped (chars : jsstring) :
  Forall (fun c => VOCAB !! c = None) chars ->
  omap (fun char => VOCAB !! char) chars = [].
Proof.
  induction 1 as [|c chars Hc _ IH]; [done|].
  cbn [omap list_omap]. by rewrite Hc.
Qed.

Lemma omap_fmap_lower (text : jsstring) :
  omap (fun char => VOCAB !! char) (map ascii_lower text)
  = omap (fun char => VOCAB !! ascii_lower char) text.
Proof.
  induction text as [|c text IH]; [done|].
  cbn [map omap list_omap]. by rewrite IH.
Qed.

Lemma numTokens_range (tokens : list Z) : 0 <= numTokens tokens <= 509.
Proof. unfold numTokens. lia. Qed.
End TokenizerFacts.

Section SliceFacts.
Context {A : Type}.

Lemma slice_in_range (l : list A) (start end_ : Z) :
  0 <= start <= end_ -> end_ <= Z.of_nat (length l) ->
  slice l start end_
  = take (Z.to_nat (end_ - start)) (drop (Z.to_nat start) l).
Proof.
  intros Hs He. unfold slice.
  destruct (Z.ltb_spec start 0), (Z.ltb_spec end_ 0); try lia.
  rewrite (Z.min_l start), (Z.min_l end_), Z.max_l by lia. done.
Qed.

(** Past the end of the array the slice is silently cut short. *)
Lemma slice_past_end (l : list A) (start end_ : Z) :
  0 <= start <= end_ -> Z.of_nat (length l) < end_ ->
  slice l start end_ = drop (Z.to_nat start) l.
Proof.
  intros Hs He. unfold slice.
  destruct (Z.ltb_spec start 0), (Z.ltb_spec end_ 0); try lia.
  rewrite (Z.min_r end_) by lia.
  destruct (Z.le_gt_cases start (Z.of_nat (length l))).
  - rewrite (Z.min_l start) by lia. apply take_ge. rewrite length_drop. lia.
  - rewrite (Z.min_r start) by lia.
    rewrite !drop_ge by lia. apply take_nil.
Qed.

Lemma slice_never_longer (l : list A) (start end_ : Z) :
  0 <= start <= end_ ->
  Z.of_nat (length (slice l start end_)) <= end_ - start.
Proof.
  intros Hs. unfold slice.
  destruct (Z.ltb_spec start 0), (Z.ltb_spec end_ 0); try lia.
  rewrite length_take, length_drop. lia.
Qed.
End SliceFacts.

(** * The request pipeline *)

Section PipelineFacts.
Variable rt : Runtime.

Ltac run_M :=
  unfold mbind, mret, M_bind, M_ret, lift, emit, throw, try_catch;
  cbn [fst snd app].

(** [downloadVoice] catches everything and only touches the voice
    store. *)
Lemma downloadVoice_ok (voiceId : string) :
  exists b dl, downloadVoice rt voiceId = (Ok b, dl)
               /\ forallb is_download_event dl = true.
Proof.
  unfold downloadVoice. run_M.
  repeat (case_match; simplify_eq; cbn [app forallb is_download_event andb]);
    eauto.
Qed.

Lemma binary_string_loop (bytes : list Z) : forall binary : list Z,
  foldl (fun binary byte => binary ++ [byte]) binary bytes = binary ++ bytes.
Proof.
  induction bytes as [|b bytes IH]; intros binary; simpl.
  - by rewrite app_nil_r.
  - by rewrite IH, <- app_assoc.
Qed.

(** The audio file step writes the encoded WAV, whatever the waveform. *)
Lemma floatArrayToAudioFile_eq (floatArray : list spec_float) :
  _floatArrayToAudioFile rt floatArray
  = (match writeAsStringAsync rt (tempFilePath rt)
             (btoa rt (wav_header SAMPLE_RATE (Z.of_nat (length floatArray) * 2)
                       ++ flat_map le16 (map floatToPcm floatArray))) with
     | Ok _ => Ok (tempFilePath rt)
     | Throw e => Throw e
     end,
     [EvWriteFile (tempFilePath rt)
        (btoa rt (wav_header SAMPLE_RATE (Z.of_nat (length floatArray) * 2)
                  ++ flat_map le16 (map floatToPcm floatArray)))]).
Proof.
  unfold _floatArrayToAudioFile, _arrayBufferToBase64.
  rewrite floatArrayToWav_bytes. run_M.
  rewrite binary_string_loop. fold (tempFilePath rt). cbn [app].
  by destruct (writeAsStringAsync rt _ _).
Qed.

(** [generateAudio] on a loaded model: download, build the request, run
    it, check the response, play. *)
Lemma generateAudio_loaded text voiceId speed :
  let v := default "af_heart"%string voiceId in
  let s := default (JS.number_of_Z 1) speed in
  exists b dl,
    downloadVoice rt v = (Ok b, dl)
    /\ forallb is_download_event dl = true
    /\ generateAudio rt loaded text voiceId speed
       = match request_inputs rt text v s with
         | Throw e => (Throw e, dl)
         | Ok inputs =>
             match session_run rt inputs with
             | Throw e => (Throw e, dl ++ [EvRun inputs])
             | Ok outputs =>
                 match waveform_of outputs with
                 | None => (Throw (Error "Invalid output from model inference"),
                            dl ++ [EvRun inputs])
                 | Some waveform =>
                     (fst (play_waveform rt waveform),
                      dl ++ [EvRun inputs] ++ snd (play_waveform rt waveform))
                 end
             end
         end.
Proof.
  intros v s. destruct (downloadVoice_ok v) as (b & dl & Hdl & Hev).
  exists b, dl. split; [done|]. split; [done|].
  unfold generateAudio, request_inputs, play_waveform. fold v s.
  cbn [loaded isOnnxAvailable isModelLoaded negb].
  rewrite Hdl. unfold getStyleSlice. run_M.
  unfold result_bind.
  repeat (case_match; simplify_eq; cbn [fst snd app]);
    rewrite ?app_nil_r, <- ?app_assoc; try done; congruence.
Qed.
End PipelineFacts.

(** * Decoding the fields *)

Section FieldFacts.

Lemma fieldAt_bytes (b : list Z) off len bs :
  bytesAt b off len = bs ->
  fieldAt b off len = foldr (fun byte acc => byte + 256 * acc) 0 bs.
Proof. intros <-. done. Qed.

Lemma le32_value v :
  foldr (fun byte acc => byte + 256 * acc) 0 (le32 v) = v mod 2 ^ 32.
Proof.
  rewrite <- mod_pow32_bytes. cbv zeta. set (w := v mod 2 ^ 32).
  cbn [foldr].
  pose proof (Z.div_mod w 256 ltac:(done)).
  pose proof (Z.div_mod (w / 256) 256 ltac:(done)).
  pose proof (Z.div_mod (w / 65536) 256 ltac:(done)).
  assert (w / 256 / 256 = w / 65536) by (rewrite Z.div_div by lia; done).
  assert (w / 65536 / 256 = w / 16777216) by (rewrite Z.div_div by lia; done).
  lia.
Qed.

Lemma le16_value v :
  foldr (fun byte acc => byte + 256 * acc) 0 (le16 v) = v mod 2 ^ 16.
Proof.
  unfold le16. cbn [foldr].
  rewrite <- mod_pow16_byte0, <- mod_pow16_byte1.
  pose proof (Z.div_mod (v mod 2 ^ 16) 256 ltac:(done)). lia.
Qed.

Lemma wrap_signed_16_mod v :
  -32768 <= v <= 32767 -> JS.wrap_signed 16 (v mod 2 ^ 16) = v.
Proof.
  intros Hv. unfold JS.wrap_signed. rewrite Z.mod_mod by done.
  by apply wrap_signed_16_id.
Qed.

(** Reading back the samples written after a prefix. *)
Lemma int16At_samples (vals : list Z) : forall (pre : list Z),
  Forall (fun v => -32768 <= v <= 32767) vals ->
  map (fun i => int16At (pre ++ flat_map le16 vals) (length pre + 2 * i))
      (seq 0 (length vals))
  = vals.
Proof.
  induction vals as [|v vals IH]; intros pre Hr; [done|].
  apply Forall_cons in Hr as [Hv Hr].
  cbn [length seq map flat_map]. f_equal.
  - unfold int16At. rewrite (fieldAt_bytes _ _ _ (le16 v)).
    + rewrite le16_value. by apply wrap_signed_16_mod.
    + unfold bytesAt. rewrite Nat.mul_0_r, Nat.add_0_r, drop_app_length. done.
  - rewrite <- seq_shift, map_map.
    rewrite <- (IH (pre ++ le16 v) Hr) at 2.
    apply map_ext. intros i. rewrite <- app_assoc. f_equal.
    rewrite length_app. simpl. lia.
Qed.
End FieldFacts.

Section RequestFacts.
Variable rt : Runtime.

Lemma loaded_or_not (this : KokoroOnnx) : this = loaded \/ this <> loaded.
Proof. destruct this as [[] []]; (by left) || (by right). Qed.

Lemma generateAudio_not_ready this text voiceId speed :
  this <> loaded ->
  exists e, generateAudio rt this text voiceId speed = (Throw e, []).
Proof.
  destruct this as [[] []]; intros Hne; try done;
    unfold generateAudio; cbn [isOnnxAvailable isModelLoaded negb]; eauto.
Qed.

Lemma play_waveform_log waveform :
  forallb is_audio_event (snd (play_waveform rt waveform)) = true.
Proof.
  unfold play_waveform. rewrite floatArrayToAudioFile_eq.
  unfold mbind, M_bind, emit, lift.
  by repeat (case_match; simplify_eq; cbn [snd app forallb is_audio_event andb]).
Qed.

Lemma download_event_not_run dl inputs :
  forallb is_download_event dl = true -> EvRun inputs ∉ dl.
Proof.
  intros Hdl Hin. rewrite forallb_forall in Hdl.
  apply list_elem_of_In in Hin. by apply Hdl in Hin.
Qed.

Lemma download_event_not_audio dl :
  forallb is_download_event dl = true ->
  forallb (fun ev => negb (is_audio_event ev)) dl = true.
Proof.
  rewrite !forallb_forall. intros Hdl ev Hin. apply Hdl in Hin.
  by destruct ev.
Qed.

Lemma audio_event_not_run l inputs :
  forallb is_audio_event l = true -> EvRun inputs ∉ l.
Proof.
  intros Hl Hin. rewrite forallb_forall in Hl.
  apply list_elem_of_In in Hin. by apply Hl in Hin.
Qed.

Lemma run_event_unique dl l inputs inputs0 :
  EvRun inputs ∉ dl -> EvRun inputs ∉ l ->
  EvRun inputs ∈ dl ++ [EvRun inputs0] ++ l -> inputs = inputs0.
Proof.
  intros Hdl Hl [?|[?%list_elem_of_singleton|?]%elem_of_app]%elem_of_app;
    [done | congruence | done].
Qed.

(** The session is run on the request of steps 1 to 3, and on nothing
    else. *)
Lemma generateAudio_run_event this text voiceId speed inputs :
  EvRun inputs ∈ snd (generateAudio rt this text voiceId speed) ->
  this = loaded
  /\ request_inputs rt text (default "af_heart"%string voiceId)
       (default (JS.number_of_Z 1) speed) = Ok inputs.
Proof.
  intros Hin. destruct (loaded_or_not this) as [->|Hne].
  - split; [done|].
    destruct (generateAudio_loaded rt text voiceId speed)
      as (b & dl & _ & Hdl & Heq).
    rewrite Heq in Hin. clear Heq.
    pose proof (download_event_not_run dl inputs Hdl) as Hnd.
    destruct (request_inputs rt text _ _) as [inputs0|e]; [|done].
    f_equal. symmetry.
    destruct (session_run rt inputs0) as [outputs|e]; cbn [snd] in Hin.
    + destruct (waveform_of outputs) as [w|]; cbn [snd] in Hin.
      * apply (run_event_unique dl (snd (play_waveform rt w))); [done | | done].
        apply audio_event_not_run, play_waveform_log.
      * apply (run_event_unique dl []); [done | apply not_elem_of_nil | done].
    + apply (run_event_unique dl []); [done | apply not_elem_of_nil | done].
  - destruct (generateAudio_not_ready this text voiceId speed Hne) as [e He].
    rewrite He in Hin. by apply elem_of_nil in Hin.
Qed.

Lemma request_inputs_inv text voiceId speed inputs :
  request_inputs rt text voiceId speed = Ok inputs ->
  let tokens := tokenize rt text in
  let offset := numTokens tokens * STYLE_DIM in
  exists voiceData input_ids style speed_t,
    getVoiceData rt voiceId = Ok voiceData
    /\ (Tensor_new rt "int64" (Int32ArrayData (map (JS.wrap_signed 32) tokens))
          [1; Z.of_nat (length tokens)] = Ok input_ids
        \/ Tensor_new rt "int64" (ArrayData tokens)
             [1; Z.of_nat (length tokens)] = Ok input_ids)
    /\ Tensor_new rt "float32"
         (Float32ArrayData (slice voiceData offset (offset + STYLE_DIM)))
         [1; STYLE_DIM] = Ok style
    /\ Tensor_new rt "float32" (Float32ArrayData [JS.fround speed]) [1]
       = Ok speed_t
    /\ inputs !! "input_ids"%string = Some input_ids
    /\ inputs !! "style"%string = Some style
    /\ inputs !! "speed"%string = Some speed_t.
Proof.
  intros H tokens offset. unfold request_inputs, getStyleSlice in H.
  fold tokens offset in H.
  unfold mbind, result_bind in H.
  destruct (getVoiceData rt voiceId) as [voiceData|]; [|done].
  destruct (Tensor_new rt "int64" (Int32ArrayData _) _) as [t1|] eqn:H1.
  - destruct (Tensor_new rt "float32" (Float32ArrayData (slice _ _ _)) _)
      as [style|] eqn:H2; [|done].
    destruct (Tensor_new rt "float32" (Float32ArrayData [_]) _)
      as [speed_t|] eqn:H3; [|done].
    simplify_eq. exists voiceData, t1, style, speed_t.
    repeat split; auto.
  - destruct (Tensor_new rt "int64" (ArrayData _) _) as [t1|] eqn:H1'; [|done].
    destruct (Tensor_new rt "float32" (Float32ArrayData (slice _ _ _)) _)
      as [style|] eqn:H2; [|done].
    destruct (Tensor_new rt "float32" (Float32ArrayData [_]) _)
      as [speed_t|] eqn:H3; [|done].
    simplify_eq. exists voiceData, t1, style, speed_t.
    repeat split; auto.
Qed.
End RequestFacts.

(** * The WAV encoder: statements *)

(** C1. For every sequence of float samples and every sample rate,
    [_floatArrayToWav] returns (it never raises) a byte sequence of length
    44 + 2 * numSamples that begins with the 44-byte header: "RIFF" at bytes
    0-3, chunkSize = 36 + dataLength at 4-7, "WAVE" at 8-11, "fmt " at 12-15,
    16 at 16-19, format code 1 at 20-21, channel count 1 at 22-23, the sample
    rate at 24-27, byteRate = sampleRate * 2 at 28-31, blockAlign 2 at 32-33,
    bitsPerSample 16 at 34-35, "data" at 36-39 and dataLength = numSamples * 2
    at 40-43, every field little-endian, followed by the 16-bit PCM value of
    each sample in order, little-endian. A 32-bit field holds its value
    modulo 2^32, a 16-bit sample reads back as the PCM value. In particular
    the empty sequence at 24000 Hz gives exactly 44 bytes with chunkSize 36
    and dataLength 0. *)
Theorem wav_header_layout (samples : list spec_float) (sampleRate : Z) :
  let numSamples := Z.of_nat (length samples) in
  let dataLength := numSamples * 2 in
  (exists out,
     _floatArrayToWav samples sampleRate = Ok out
     /\ length out = (44 + 2 * length samples)%nat
     /\ bytesAt out 0 4 = ascii_codes ["R"; "I"; "F"; "F"]%char
     /\ bytesAt out 4 4 = le32 (36 + dataLength)
     /\ bytesAt out 8 4 = ascii_codes ["W"; "A"; "V"; "E"]%char
     /\ bytesAt out 12 4 = ascii_codes ["f"; "m"; "t"; " "]%char
     /\ bytesAt out 16 4 = le32 16
     /\ bytesAt out 20 2 = le16 1
     /\ bytesAt out 22 2 = le16 1
     /\ bytesAt out 24 4 = le32 sampleRate
     /\ bytesAt out 28 4 = le32 (sampleRate * 2)
     /\ bytesAt out 32 2 = le16 2
     /\ bytesAt out 34 2 = le16 16
     /\ bytesAt out 36 4 = ascii_codes ["d"; "a"; "t"; "a"]%char
     /\ bytesAt out 40 4 = le32 dataLength
     /\ drop 44 out = flat_map le16 (map floatToPcm samples)
     /\ fieldAt out 4 4 = (36 + dataLength) mod 2 ^ 32
     /\ fieldAt out 16 4 = 16
     /\ fieldAt out 20 2 = 1
     /\ fieldAt out 22 2 = 1
     /\ fieldAt out 24 4 = sampleRate mod 2 ^ 32
     /\ fieldAt out 28 4 = (sampleRate * 2) mod 2 ^ 32
     /\ fieldAt out 32 2 = 2
     /\ fieldAt out 34 2 = 16
     /\ fieldAt out 40 4 = dataLength mod 2 ^ 32
     /\ map (fun i => int16At out (44 + 2 * i)) (seq 0 (length samples))
        = map floatToPcm samples)
  /\ (exists out,
        _floatArrayToWav [] 24000 = Ok out
        /\ length out = 44%nat
        /\ fieldAt out 4 4 = 36
        /\ fieldAt out 40 4 = 0).
Proof.
  intros numSamples dataLength. split.
  - eexists. split; [apply floatArrayToWav_bytes|].
    fold numSamples dataLength.
    set (body := flat_map le16 (map floatToPcm samples)).
    set (out := wav_header sampleRate dataLength ++ body).
    assert (Hbody : length body = (2 * length samples)%nat).
    { unfold body. clear. induction samples as [|s l IH]; [done|].
      cbn [map flat_map]. rewrite length_app, IH. cbn [le16 length]. lia. }
    assert (H4 : bytesAt out 4 4 = le32 (36 + dataLength)) by reflexivity.
    assert (H24 : bytesAt out 24 4 = le32 sampleRate) by reflexivity.
    assert (H28 : bytesAt out 28 4 = le32 (sampleRate * 2)) by reflexivity.
    assert (H40 : bytesAt out 40 4 = le32 dataLength) by reflexivity.
    split.
    { unfold out. rewrite length_app, Hbody. done. }
    repeat (split; [reflexivity|]).
    split; [by rewrite (fieldAt_bytes _ _ _ _ H4), le32_value|].
    repeat (split; [reflexivity|]).
    split; [by rewrite (fieldAt_bytes _ _ _ _ H24), le32_value|].
    split; [by rewrite (fieldAt_bytes _ _ _ _ H28), le32_value|].
    repeat (split; [reflexivity|]).
    split; [by rewrite (fieldAt_bytes _ _ _ _ H40), le32_value|].
    rewrite <- (length_map floatToPcm samples).
    apply (int16At_samples (map floatToPcm samples)
             (wav_header sampleRate dataLength)).
    apply Forall_forall. intros v [s [-> _]]%list_elem_of_fmap.
    apply floatToPcm_range.
  - eexists. split; [apply floatArrayToWav_bytes|]. by vm_compute.
Qed.

(** C2. For every float sample [s] the encoder emits the 16-bit value
    [clamp(floor(s * 32767), -32768, 32767)], the product and the floor being
    those of the rational value of [s]: this holds for every finite binary32
    sample; an infinite sample gives the bound of its sign, and NaN, which
    denotes no number, gives 0. In particular 2.0 maps to 32767, -2.0 to
    -32768 and 0.0 to 0. *)
Theorem sample_conversion :
  (forall s : spec_float,
     JS.is_float32 s = true ->
     match s with
     | S754_nan => floatToPcm s = 0
     | S754_infinity sign => floatToPcm s = if sign then -32768 else 32767
     | S754_zero _ | S754_finite _ _ _ => floatToPcm s = pcm_spec (F2Q s)
     end)
  /\ (F2Q f32_two == 2 # 1)%Q /\ floatToPcm f32_two = 32767
  /\ (F2Q f32_neg_two == -2 # 1)%Q /\ floatToPcm f32_neg_two = -32768
  /\ (F2Q f32_zero == 0)%Q /\ floatToPcm f32_zero = 0.
Proof.
  split; [|by vm_compute].
  intros [sign|sign| |sign m e] Hs.
  - by destruct sign.
  - by destruct sign.
  - done.
  - by apply floatToPcm_finite.
Qed.

Lemma sample_conversion_witness :
  JS.is_float32 f32_half = true /\ floatToPcm f32_half = pcm_spec (F2Q f32_half).
Proof.
  split; [reflexivity|].
  exact (proj1 sample_conversion f32_half eq_refl).
Defined.

(** C3 as the specification states it: the waveform [0.5, -1.0, 1.0, 0.0]
    at 24000 Hz does not encode to the PCM values [16384, -32768, 32767, 0]. *)
Lemma four_samples_not_as_stated :
  (F2Q f32_half == 1 # 2)%Q /\ (F2Q f32_neg_one == -1 # 1)%Q
  /\ (F2Q f32_one == 1 # 1)%Q /\ (F2Q f32_zero == 0)%Q
  /\ _floatArrayToWav [f32_half; f32_neg_one; f32_one; f32_zero] 24000
     <> Ok (wav_header 24000 8 ++ flat_map le16 [16384; -32768; 32767; 0]).
Proof.
  repeat (split; [by vm_compute|]).
  rewrite floatArrayToWav_bytes. vm_compute. discriminate.
Qed.

(** C3, amended. Encoding [0.5, -1.0, 1.0, 0.0] at 24000 Hz produces exactly
    the 44-byte header followed by the PCM values [16383, -32767, 32767, 0]
    (floor(0.5 * 32767) = 16383 and floor(-1.0 * 32767) = -32767), each as a
    little-endian 16-bit signed integer. *)
Theorem four_samples_encoding :
  map floatToPcm [f32_half; f32_neg_one; f32_one; f32_zero]
  = [16383; -32767; 32767; 0]
  /\ _floatArrayToWav [f32_half; f32_neg_one; f32_one; f32_zero] 24000
     = Ok (wav_header 24000 8 ++ flat_map le16 [16383; -32767; 32767; 0])
  /\ _floatArrayToWav [f32_half; f32_neg_one; f32_one; f32_zero] 24000
     = Ok [82; 73; 70; 70; 44; 0; 0; 0; 87; 65; 86; 69; 102; 109; 116; 32;
           16; 0; 0; 0; 1; 0; 1; 0; 192; 93; 0; 0; 128; 187; 0; 0; 2; 0; 16; 0;
           100; 97; 116; 97; 8; 0; 0; 0;
           255; 63; 1; 128; 255; 127; 0; 0].
Proof. by vm_compute. Qed.

(** * Tokenizer and style slice: statements *)

(** C4. For every input string, [tokenize] returns a sequence whose first
    and last elements are the sentinel 0; for every string whose lower-cased
    symbols all lack a vocabulary entry the result is exactly [0, 0], and so
    it is for the empty string (on a platform whose [toLowerCase] lower-cases
    ASCII text symbol by symbol, which maps the empty string to itself). *)
Theorem tokenize_sentinels (rt : Runtime) (text : jsstring) :
  head (tokenize rt text) = Some 0
  /\ last (tokenize rt text) = Some 0
  /\ (Forall (fun c => VOCAB !! c = None) (toLowerCase rt text) ->
      tokenize rt text = [0; 0])
  /\ (lowers_ascii rt ->
      Forall (fun c => is_ascii c /\ VOCAB !! ascii_lower c = None) text ->
      tokenize rt text = [0; 0])
  /\ (lowers_ascii rt -> tokenize rt [] = [0; 0]).
Proof.
  rewrite tokenize_eq. split; [done|]. split.
  { rewrite app_comm_cons. apply last_snoc. }
  split.
  { intros Hu. by rewrite omap_unmapped. }
  split.
  - intros Hrt Hu. rewrite Hrt by (eapply Forall_impl; [done | by intros ? []]).
    rewrite omap_fmap_lower.
    assert (omap (fun char => VOCAB !! ascii_lower char) text = []) as ->; [|done].
    induction Hu as [|c l [_ Hc] _ IH]; [done|].
    cbn [omap list_omap]. by rewrite Hc.
  - intros Hrt. rewrite tokenize_eq, Hrt by done. done.
Qed.

Lemma tokenize_sentinels_witness :
  let rt := reference_runtime [] (Ok None) in
  tokenize rt (js "42 %") = [0; 6; 0]
  /\ tokenize rt (js "42%#") = [0; 0]
  /\ tokenize rt [] = [0; 0].
Proof.
  intros rt.
  assert (Hrt : lowers_ascii rt) by (intros s _; reflexivity).
  split; [reflexivity|]. split.
  - apply (tokenize_sentinels rt (js "42%#")). vm_compute.
    repeat constructor.
  - by apply (tokenize_sentinels rt []).
Defined.

(** C5. For every input string, [tokenize] lower-cases the text before the
    lookup (symbol by symbol on ASCII text), emits between the sentinels the
    vocabulary id of each mapped symbol in input order, and skips unmapped
    symbols: nothing is raised and no placeholder is emitted. The vocabulary
    maps h to 40, i to 41 and '.' to 3, and tokenize("Hi.") is
    [0, 40, 41, 3, 0]. *)
Theorem tokenize_lookup (rt : Runtime) (text : jsstring) :
  tokenize rt text
  = 0 :: omap (fun char => VOCAB !! char) (toLowerCase rt text) ++ [0]
  /\ (lowers_ascii rt -> Forall is_ascii text ->
      tokenize rt text
      = 0 :: omap (fun char => VOCAB !! ascii_lower char) text ++ [0])
  /\ VOCAB !! cp "h" = Some 40
  /\ VOCAB !! cp "i" = Some 41
  /\ VOCAB !! cp "." = Some 3
  /\ (lowers_ascii rt -> tokenize rt (js "Hi.") = [0; 40; 41; 3; 0]).
Proof.
  split; [apply tokenize_eq|]. split.
  { intros Hrt Ha. by rewrite tokenize_eq, Hrt, omap_fmap_lower. }
  repeat (split; [by vm_compute|]).
  intros Hrt. rewrite tokenize_eq, Hrt; [by vm_compute|].
  vm_compute. repeat constructor.
Qed.

Lemma tokenize_lookup_witness :
  let rt := reference_runtime [] (Ok None) in
  tokenize rt (js "Hi.") = [0; 40; 41; 3; 0]
  /\ tokenize rt (js "A-b") = [0; 33; 34; 0].
Proof.
  intros rt.
  assert (Hrt : lowers_ascii rt) by (intros s _; reflexivity).
  split.
  - by apply (tokenize_lookup rt []).
  - destruct (tokenize_lookup rt (js "A-b")) as (_ & H & _).
    rewrite H; [reflexivity | done |]. vm_compute. repeat constructor.
Defined.

(** C6. [generateAudio] computes the style token count as
    numTokens = min(max(len(tokens) - 2, 0), 509) before it indexes the voice
    blob: the count lies between 0 and 509 for every tokenizer output, it is
    3 for the tokens [0, 40, 41, 3, 0], and whenever the session is run the
    style tensor of the request was built from the slice of the voice blob
    at offset numTokens * 256. *)
Theorem style_token_count (rt : Runtime) (this : KokoroOnnx) (text : jsstring)
    (voiceId : option string) (speed : option JS.number) :
  let tokens := tokenize rt text in
  numTokens tokens = Z.min (Z.max (Z.of_nat (length tokens) - 2) 0) 509
  /\ 0 <= numTokens tokens <= 509
  /\ numTokens [0; 40; 41; 3; 0] = 3
  /\ (forall inputs,
        EvRun inputs ∈ snd (generateAudio rt this text voiceId speed) ->
        exists voiceData style,
          getVoiceData rt (default "af_heart"%string voiceId) = Ok voiceData
          /\ Tensor_new rt "float32"
               (Float32ArrayData
                  (slice voiceData (numTokens tokens * 256)
                     (numTokens tokens * 256 + 256)))
               [1; 256] = Ok style
          /\ inputs !! "style"%string = Some style).
Proof.
  intros tokens. split; [done|]. split; [apply numTokens_range|].
  split; [done|].
  intros inputs [_ Hreq]%generateAudio_run_event.
  apply request_inputs_inv in Hreq
    as (voiceData & _ & style & _ & Hv & _ & Hs & _ & _ & Hl & _).
  by exists voiceData, style.
Qed.

Lemma style_token_count_witness :
  let rt := reference_runtime (voice_of_frames 4) (waveform_response [f32_half]) in
  exists inputs style,
    EvRun inputs ∈ snd (generateAudio rt loaded (js "Hi.") None None)
    /\ inputs !! "style"%string = Some style
    /\ tensor_data style
       = Float32ArrayData (slice (voice_of_frames 4) (3 * 256) (3 * 256 + 256)).
Proof.
  intros rt.
  destruct (request_inputs rt (js "Hi.") "af_heart" (JS.number_of_Z 1))
    as [inputs|] eqn:Hreq; [|by vm_compute in Hreq].
  assert (Hin : EvRun inputs ∈ snd (generateAudio rt loaded (js "Hi.") None None)).
  { destruct (generateAudio_loaded rt (js "Hi.") None None)
      as (b & dl & _ & _ & ->).
    cbn [default]. rewrite Hreq. cbn [rt reference_runtime session_run].
    cbn [waveform_response waveform_of].
    rewrite lookup_singleton_eq. cbn [data snd].
    apply elem_of_app. right. apply list_elem_of_here. }
  destruct (style_token_count rt loaded (js "Hi.") None None)
    as (_ & _ & _ & Hrun).
  destruct (Hrun inputs Hin) as (voiceData & style & Hv & Hs & Hl).
  exists inputs, style. split; [done|]. split; [done|].
  cbn [rt reference_runtime getVoiceData] in Hv. simplify_eq.
  cbn [rt reference_runtime Tensor_new] in Hs.
  vm_compute in Hs. simplify_eq. by vm_compute.
Defined.

(** C7. For every voice blob and every token count [t] such that
    t * 256 + 256 does not exceed the blob length, the style lookup returns
    exactly the 256 contiguous floats of the blob that start at offset
    t * 256: it has 256 elements, and its element [i] is element
    256 * t + i of the blob. *)
Theorem style_slice_frame (voiceData : list spec_float) (t : Z) :
  0 <= t ->
  t * 256 + 256 <= Z.of_nat (length voiceData) ->
  exists frame,
    getStyleSlice voiceData t = Ok frame
    /\ frame = take 256 (drop (Z.to_nat (t * 256)) voiceData)
    /\ length frame = 256%nat
    /\ (forall i : nat, (i < 256)%nat ->
          frame !! i = voiceData !! (Z.to_nat (t * 256) + i)%nat).
Proof.
  intros Ht Hlen. eexists. split; [reflexivity|].
  unfold STYLE_DIM. rewrite slice_in_range by lia.
  replace (Z.to_nat (t * 256 + 256 - t * 256)) with 256%nat by lia.
  split; [done|]. split.
  - rewrite length_take, length_drop. lia.
  - intros i Hi. by rewrite lookup_take_lt, lookup_drop.
Qed.

Lemma style_slice_frame_witness :
  exists frame,
    getStyleSlice (voice_of_frames 4) 3 = Ok frame /\ length frame = 256%nat.
Proof.
  destruct (style_slice_frame (voice_of_frames 4) 3) as (frame & H & _ & Hl & _).
  - lia.
  - vm_compute. discriminate.
  - by exists frame.
Defined.

(** C8 as the specification states it: with a blob of 300 floats and a
    token count of 1 the offset plus 256 exceeds the blob, yet the lookup
    raises nothing and returns the 44 floats that remain. *)
Lemma short_blob_not_rejected :
  let blob := voice_of_frames 1 ++ replicate 44 f32_one in
  Z.of_nat (length blob) < 1 * 256 + 256
  /\ getStyleSlice blob 1 = Ok (replicate 44 f32_one)
  /\ ~ (exists e, getStyleSlice blob 1 = Throw e).
Proof.
  split; [by vm_compute|]. split; [by vm_compute|].
  intros [e He]. by vm_compute in He.
Qed.

(** C8, amended. Whenever the style offset plus 256 exceeds the voice
    blob's length, the style lookup raises no error: it returns the floats
    of the blob from the offset to its end, fewer than 256 of them (none when
    the offset is at or past the end); the shortened array is what is passed
    on to the style tensor constructor: a request that is run carries the
    tensor built from it, and if the constructor throws on it the session is
    not run and the request fails (with that exception when the token tensor
    was built). *)
Theorem style_slice_shortened (voiceData : list spec_float) (t : Z) :
  0 <= t ->
  Z.of_nat (length voiceData) < t * 256 + 256 ->
  let short := drop (Z.to_nat (t * 256)) voiceData in
  getStyleSlice voiceData t = Ok short
  /\ (length short < 256)%nat
  /\ (Z.of_nat (length voiceData) <= t * 256 ->
      getStyleSlice voiceData t = Ok [])
  /\ (forall (rt : Runtime) (text : jsstring) (voiceId : option string)
             (speed : option JS.number),
        getVoiceData rt (default "af_heart"%string voiceId) = Ok voiceData ->
        numTokens (tokenize rt text) = t ->
        let tokens := tokenize rt text in
        let dims := [1; Z.of_nat (length tokens)] in
        (forall this inputs,
           EvRun inputs ∈ snd (generateAudio rt this text voiceId speed) ->
           exists style,
             Tensor_new rt "float32" (Float32ArrayData short) [1; 256] = Ok style
             /\ inputs !! "style"%string = Some style)
        /\ (forall e,
              Tensor_new rt "float32" (Float32ArrayData short) [1; 256] = Throw e ->
              (exists e', fst (generateAudio rt loaded text voiceId speed) = Throw e')
              /\ snd (generateAudio rt loaded text voiceId speed)
                 = snd (downloadVoice rt (default "af_heart"%string voiceId))
              /\ ((exists ids,
                     Tensor_new rt "int64"
                       (Int32ArrayData (map (JS.wrap_signed 32) tokens)) dims = Ok ids
                     \/ Tensor_new rt "int64" (ArrayData tokens) dims = Ok ids) ->
                  fst (generateAudio rt loaded text voiceId speed) = Throw e))).
Proof.
  intros Ht Hlen short.
  assert (Hslice : slice voiceData (t * 256) (t * 256 + 256) = short)
    by (apply slice_past_end; lia).
  unfold getStyleSlice, STYLE_DIM. rewrite Hslice.
  split; [done|]. split.
  { unfold short. rewrite length_drop. lia. }
  split.
  { intros Hle. unfold short. rewrite drop_ge by lia. done. }
  intros rt text voiceId speed Hv Hn. split.
  - intros this inputs [_ Hreq]%generateAudio_run_event.
    apply request_inputs_inv in Hreq
      as (voiceData' & _ & style & _ & Hv' & _ & Hs & _ & _ & Hl & _).
    rewrite Hv in Hv'. injection Hv' as <-.
    rewrite Hn in Hs. unfold STYLE_DIM in Hs. rewrite Hslice in Hs.
    by exists style.
  - intros e He.
    destruct (generateAudio_loaded rt text voiceId speed)
      as (b & dl & Hd & _ & ->).
    rewrite Hd. cbn [snd].
    unfold request_inputs, getStyleSlice, STYLE_DIM, mbind, result_bind.
    rewrite Hv. cbv beta iota. rewrite Hn, Hslice, He.
    destruct (Tensor_new rt "int64" (Int32ArrayData _) _) as [t1|e1].
    + cbn [fst snd]. eauto.
    + destruct (Tensor_new rt "int64" (ArrayData _) _) as [t2|e2];
        cbn [fst snd].
      * eauto.
      * split; [eauto|]. split; [done|]. by intros [ids [H|H]].
Qed.

Lemma style_slice_shortened_witness :
  let blob := voice_of_frames 1 ++ replicate 44 f32_one in
  let rt := reference_runtime blob (waveform_response [f32_one]) in
  getStyleSlice blob 1 = Ok (replicate 44 f32_one)
  /\ getStyleSlice (voice_of_frames 1) 1 = Ok []
  /\ generateAudio rt loaded (js "a") None None
     = (Throw (Error "Tensor's size does not match data length"), []).
Proof.
  intros blob rt. split; [|split].
  - destruct (style_slice_shortened blob 1) as (H & _); [lia | by vm_compute | exact H].
  - destruct (style_slice_shortened (voice_of_frames 1) 1)
      as (_ & _ & H & _); [lia | by vm_compute |].
    apply H. by vm_compute.
  - destruct (style_slice_shortened blob 1) as (_ & _ & _ & H);
      [lia | by vm_compute |].
    destruct (H rt (js "a") None None eq_refl eq_refl) as [_ Hthrow].
    destruct (Hthrow (Error "Tensor's size does not match data length") eq_refl)
      as (_ & Hlog & Hfst).
    rewrite (surjective_pairing (generateAudio rt loaded (js "a") None None)).
    rewrite Hlog, Hfst; [reflexivity|].
    eexists. right. reflexivity.
Defined.

(** * The request: statements *)

(** C9. The token sequence is not capped. A text of 510 mapped characters
    tokenizes to 512 tokens, and the token-id tensor handed to the inference
    session has shape [1, 512] and 512 elements, more than the 511 the
    specification allows; the clamp to 509 only bounds the style index. *)
Theorem long_text_not_capped :
  let text := replicate 510 (cp "a") in
  let rt := reference_runtime (voice_of_frames 510) (waveform_response []) in
  length (tokenize rt text) = 512%nat
  /\ numTokens (tokenize rt text) = 509
  /\ exists inputs input_ids,
       EvRun inputs ∈ snd (generateAudio rt loaded text None None)
       /\ inputs !! "input_ids"%string = Some input_ids
       /\ tensor_dims input_ids = [1; 512]
       /\ tensor_size (tensor_data input_ids) = 512%nat.
Proof.
  intros text rt. split; [by vm_compute|]. split; [by vm_compute|].
  destruct (request_inputs rt text "af_heart" (JS.number_of_Z 1))
    as [inputs|] eqn:Hreq; [|by vm_compute in Hreq].
  assert (Hin : EvRun inputs ∈ snd (generateAudio rt loaded text None None)).
  { destruct (generateAudio_loaded rt text None None) as (b & dl & _ & _ & ->).
    cbn [default]. rewrite Hreq. cbn [rt reference_runtime session_run].
    cbn [waveform_response waveform_of].
    rewrite lookup_singleton_eq. cbn [data snd].
    apply elem_of_app. right. apply list_elem_of_here. }
  apply request_inputs_inv in Hreq
    as (_ & input_ids & _ & _ & _ & Hids & _ & _ & Hl & _).
  exists inputs, input_ids. split; [done|]. split; [done|].
  destruct Hids as [Hids|Hids]; vm_compute in Hids; by simplify_eq.
Qed.

(** The tokenizer output grows with the text, without bound. *)
Lemma tokenize_unbounded (rt : Runtime) (n : nat) :
  lowers_ascii rt -> length (tokenize rt (replicate n (cp "a"))) = (n + 2)%nat.
Proof.
  intros Hrt. rewrite tokenize_length, Hrt.
  - rewrite omap_fmap_lower.
    assert (length (omap (fun char => VOCAB !! ascii_lower char)
                      (replicate n (cp "a"))) = n) as ->; [|lia].
    assert (Ha : VOCAB !! ascii_lower (cp "a") = Some 33) by (by vm_compute).
    induction n as [|n IH]; [done|].
    cbn [replicate omap list_omap]. rewrite Ha. cbn [length]. by rewrite IH.
  - apply Forall_replicate. by vm_compute.
Qed.

(** C10 as the specification states it: a response whose [waveform] data
    is an empty array passes the check; the request is not aborted, a 44-byte
    WAV file is written and a Sound is created. *)
Lemma empty_waveform_not_rejected :
  let rt := reference_runtime (voice_of_frames 4) (waveform_response []) in
  fst (generateAudio rt loaded (js "Hi.") None None)
  = Ok (mkSound "file:///cache/temp_audio_1700000000000.wav")
  /\ filter (fun ev => is_audio_event ev = true)
       (snd (generateAudio rt loaded (js "Hi.") None None))
     = [EvWriteFile "file:///cache/temp_audio_1700000000000.wav"
          "UklGRiQAAABXQVZFZm10IBAAAAABAAEAwF0AAIC7AAACABAAZGF0YQAAAAA=";
        EvCreateSound "file:///cache/temp_audio_1700000000000.wav"].
Proof. by vm_compute. Qed.

(** C10, amended. If the response of the inference session to the
    request that is run is absent (null or undefined), lacks the [waveform]
    output, or that output's data is null or undefined, [generateAudio]
    raises the error "Invalid output from model inference" and aborts the
    request right after the run, before any WAV file is written or Sound
    created: the run is the last thing it did. (An empty data array is not
    such a response.) *)
Theorem invalid_output_aborts (rt : Runtime) (this : KokoroOnnx)
    (text : jsstring) (voiceId : option string) (speed : option JS.number)
    (inputs : gmap string Tensor) (outputs : Outputs) :
  EvRun inputs ∈ snd (generateAudio rt this text voiceId speed) ->
  session_run rt inputs = Ok outputs ->
  invalid_outputs outputs ->
  generateAudio rt this text voiceId speed
  = (Throw (Error "Invalid output from model inference"),
     snd (downloadVoice rt (default "af_heart"%string voiceId)) ++ [EvRun inputs])
  /\ forallb (fun ev => negb (is_audio_event ev))
       (snd (generateAudio rt this text voiceId speed)) = true.
Proof.
  intros Hin Hrun Hinv.
  assert (Hnone : waveform_of outputs = None).
  { destruct Hinv as [->|[(o & -> & Ho)|(o & t & -> & Ho & Ht)]];
      unfold waveform_of; by rewrite ?Ho. }
  apply generateAudio_run_event in Hin as [-> Hreq].
  destruct (generateAudio_loaded rt text voiceId speed)
    as (b & dl & Hd & Hdl & ->).
  rewrite Hreq, Hrun, Hnone, Hd. cbn [snd]. split; [done|].
  rewrite forallb_app, (download_event_not_audio dl Hdl). done.
Qed.

Lemma invalid_output_aborts_witness :
  let rt := reference_runtime (voice_of_frames 4)
              (Ok (Some {[ "waveform"%string := mkOutput None ]})) in
  exists inputs,
    generateAudio rt loaded (js "Hi.") None None
    = (Throw (Error "Invalid output from model inference"), [EvRun inputs]).
Proof.
  intros rt.
  destruct (request_inputs rt (js "Hi.") "af_heart" (JS.number_of_Z 1))
    as [inputs|] eqn:Hreq; [|by vm_compute in Hreq].
  assert (Hin : EvRun inputs ∈ snd (generateAudio rt loaded (js "Hi.") None None)).
  { destruct (generateAudio_loaded rt (js "Hi.") None None) as (b & dl & _ & _ & ->).
    cbn [default]. rewrite Hreq. cbn [rt reference_runtime session_run].
    cbn [waveform_of]. rewrite lookup_singleton_eq. cbn [data snd].
    apply elem_of_app. right. apply list_elem_of_here. }
  exists inputs.
  destruct (invalid_output_aborts rt loaded (js "Hi.") None None inputs
              (Some {[ "waveform"%string := mkOutput None ]}) Hin eq_refl)
    as [H _].
  - right. right.
    exists {[ "waveform"%string := mkOutput None ]}, (mkOutput None).
    split; [done|]. split; [apply lookup_singleton_eq | done].
  - exact H.
Defined.

(** * Further properties of the encoder *)

Section EncoderProperties.

Lemma floatToPcm_sample (s : spec_float) :
  JS.is_float32 s = true -> is_finite_sample s = true ->
  floatToPcm s = pcm_spec (F2Q s).
Proof.
  destruct s as [[]|sg| |sg m e]; intros Hv Hf;
    [by vm_compute | by vm_compute | done | done |].
  by apply floatToPcm_finite.
Qed.

Lemma pcm_spec_mono (p q : Q) : (p <= q)%Q -> pcm_spec p <= pcm_spec q.
Proof.
  intros Hpq. unfold pcm_spec, clamp.
  assert (Qfloor (p * (32767 # 1)) <= Qfloor (q * (32767 # 1))).
  { apply Qfloor_resp_le. by apply Qmult_le_compat_r. }
  lia.
Qed.

Lemma le16_bytes v : Forall is_byte (le16 v).
Proof.
  unfold le16, is_byte.
  repeat constructor; apply Z.mod_pos_bound; lia.
Qed.

Lemma le32_bytes v : Forall is_byte (le32 v).
Proof.
  unfold le32, is_byte.
  repeat constructor; apply Z.mod_pos_bound; lia.
Qed.

Lemma flat_map_le16_length (vals : list Z) :
  length (flat_map le16 vals) = (2 * length vals)%nat.
Proof.
  induction vals as [|v vals IH]; [done|].
  cbn [flat_map]. rewrite length_app, IH. cbn [le16 length]. lia.
Qed.

Lemma wav_header_length sampleRate dataLength :
  length (wav_header sampleRate dataLength) = 44%nat.
Proof. reflexivity. Qed.

End EncoderProperties.

(** X1. The sample conversion is monotone: of two samples that denote
    numbers, the one with the smaller value never gets the larger PCM
    value. *)
Theorem floatToPcm_monotone (a b : spec_float) :
  JS.is_float32 a = true -> JS.is_float32 b = true ->
  is_finite_sample a = true -> is_finite_sample b = true ->
  (F2Q a <= F2Q b)%Q ->
  floatToPcm a <= floatToPcm b.
Proof.
  intros Ha Hb Hfa Hfb Hle.
  rewrite (floatToPcm_sample a), (floatToPcm_sample b) by done.
  by apply pcm_spec_mono.
Qed.

Lemma floatToPcm_monotone_witness : floatToPcm f32_neg_one <= floatToPcm f32_half.
Proof.
  apply floatToPcm_monotone; try reflexivity. by vm_compute.
Defined.

(** X2. A sample within [-1, 1] is never clipped: its PCM value is
    floor(s * 32767) itself, and it lies between -32767 and 32767, so the
    value -32768 is only produced by samples below -1. *)
Theorem in_range_sample_not_clipped (s : spec_float) :
  JS.is_float32 s = true -> is_finite_sample s = true ->
  (-1 # 1 <= F2Q s)%Q -> (F2Q s <= 1 # 1)%Q ->
  floatToPcm s = Qfloor (F2Q s * (32767 # 1))
  /\ -32767 <= floatToPcm s <= 32767.
Proof.
  intros Hv Hf Hlo Hhi. rewrite floatToPcm_sample by done.
  unfold pcm_spec, clamp.
  assert (-32767 <= Qfloor (F2Q s * (32767 # 1)) <= 32767).
  { split.
    - change (-32767) with (Qfloor ((-1 # 1) * (32767 # 1))).
      apply Qfloor_resp_le. by apply Qmult_le_compat_r.
    - change 32767 with (Qfloor ((1 # 1) * (32767 # 1))) at 2.
      apply Qfloor_resp_le. by apply Qmult_le_compat_r. }
  lia.
Qed.

Lemma in_range_sample_not_clipped_witness :
  floatToPcm f32_neg_one = Qfloor (F2Q f32_neg_one * (32767 # 1))
  /\ -32767 <= floatToPcm f32_neg_one <= 32767.
Proof.
  apply in_range_sample_not_clipped; try reflexivity; by vm_compute.
Defined.

(** X3. Every element of the encoder's output is a byte (0..255), for
    every input and every sample rate, negative or oversized rates
    included. *)
Theorem wav_output_bytes (samples : list spec_float) (sampleRate : Z) :
  exists out,
    _floatArrayToWav samples sampleRate = Ok out /\ Forall is_byte out.
Proof.
  eexists. split; [apply floatArrayToWav_bytes|].
  apply Forall_app. split.
  - unfold wav_header. repeat (apply Forall_app; split);
      try apply le32_bytes; try apply le16_bytes;
      unfold ascii_codes, is_byte; by repeat constructor.
  - apply Forall_flat_map, Forall_forall. intros v _. apply le16_bytes.
Qed.

(** X4. Encoding a concatenation: the sample data of [a ++ b] is the
    sample data of [a] followed by that of [b]; only the header differs. *)
Theorem wav_data_concatenation (a b : list spec_float) (sampleRate : Z) :
  exists oa ob oab,
    _floatArrayToWav a sampleRate = Ok oa
    /\ _floatArrayToWav b sampleRate = Ok ob
    /\ _floatArrayToWav (a ++ b) sampleRate = Ok oab
    /\ drop 44 oab = drop 44 oa ++ drop 44 ob
    /\ length oab = (length oa + length ob - 44)%nat.
Proof.
  do 3 eexists. repeat (split; [apply floatArrayToWav_bytes|]).
  rewrite !(drop_app_length' _ _ 44) by done.
  split.
  - by rewrite map_app, flat_map_app.
  - rewrite !length_app, !flat_map_le16_length, !length_map, length_app.
    rewrite !wav_header_length. lia.
Qed.

(** X5. The header depends only on the number of samples and the sample
    rate: two inputs of the same length get the same 44 first bytes. *)
Theorem wav_header_depends_on_length (a b : list spec_float) (sampleRate : Z) :
  length a = length b ->
  exists oa ob,
    _floatArrayToWav a sampleRate = Ok oa
    /\ _floatArrayToWav b sampleRate = Ok ob
    /\ take 44 oa = take 44 ob.
Proof.
  intros Hlen. do 2 eexists. repeat (split; [apply floatArrayToWav_bytes|]).
  rewrite !(take_app_length' _ _ 44) by done. by rewrite Hlen.
Qed.

Lemma wav_header_depends_on_length_witness :
  exists oa ob,
    _floatArrayToWav [f32_half; f32_one] 24000 = Ok oa
    /\ _floatArrayToWav [f32_zero; f32_neg_two] 24000 = Ok ob
    /\ take 44 oa = take 44 ob.
Proof. by apply wav_header_depends_on_length. Defined.

(** X6. The size fields agree with the file: when the file is shorter
    than 2^32 bytes, the chunkSize field is the file length minus 8 and the
    dataLength field is the file length minus 44, the number of bytes that
    follow each field's chunk header. *)
Theorem wav_sizes_consistent (samples : list spec_float) (sampleRate : Z) :
  44 + 2 * Z.of_nat (length samples) < 2 ^ 32 ->
  exists out,
    _floatArrayToWav samples sampleRate = Ok out
    /\ fieldAt out 4 4 = Z.of_nat (length out) - 8
    /\ fieldAt out 40 4 = Z.of_nat (length out) - 44.
Proof.
  intros Hsmall. eexists. split; [apply floatArrayToWav_bytes|].
  set (dataLength := Z.of_nat (length samples) * 2).
  set (body := flat_map le16 (map floatToPcm samples)).
  set (out := wav_header sampleRate dataLength ++ body).
  assert (Hlen : Z.of_nat (length out) = 44 + dataLength).
  { unfold out, body, dataLength.
    rewrite length_app, flat_map_le16_length, length_map, wav_header_length. lia. }
  assert (H4 : bytesAt out 4 4 = le32 (36 + dataLength)) by reflexivity.
  assert (H40 : bytesAt out 40 4 = le32 dataLength) by reflexivity.
  rewrite (fieldAt_bytes _ _ _ _ H4), (fieldAt_bytes _ _ _ _ H40), !le32_value.
  rewrite !Z.mod_small by (unfold dataLength; lia). lia.
Qed.

Lemma wav_sizes_consistent_witness :
  exists out,
    _floatArrayToWav [f32_half; f32_one; f32_zero] 24000 = Ok out
    /\ fieldAt out 4 4 = Z.of_nat (length out) - 8
    /\ fieldAt out 40 4 = Z.of_nat (length out) - 44.
Proof. apply wav_sizes_consistent. by vm_compute. Defined.

(** X7. The rate fields agree with each other: for a sample rate below
    2^31 the byteRate field equals the sample rate field times the
    blockAlign field, and blockAlign equals channels times bitsPerSample / 8. *)
Theorem wav_rates_consistent (samples : list spec_float) (sampleRate : Z) :
  0 <= sampleRate < 2 ^ 31 ->
  exists out,
    _floatArrayToWav samples sampleRate = Ok out
    /\ fieldAt out 24 4 = sampleRate
    /\ fieldAt out 28 4 = fieldAt out 24 4 * fieldAt out 32 2
    /\ fieldAt out 32 2 = fieldAt out 22 2 * (fieldAt out 34 2 / 8).
Proof.
  intros Hr. eexists. split; [apply floatArrayToWav_bytes|].
  set (out := wav_header sampleRate _ ++ _).
  assert (H24 : bytesAt out 24 4 = le32 sampleRate) by reflexivity.
  assert (H28 : bytesAt out 28 4 = le32 (sampleRate * 2)) by reflexivity.
  assert (H32 : fieldAt out 32 2 = 2) by reflexivity.
  assert (H22 : fieldAt out 22 2 = 1) by reflexivity.
  assert (H34 : fieldAt out 34 2 = 16) by reflexivity.
  rewrite H32, H22, H34.
  rewrite (fieldAt_bytes _ _ _ _ H24), (fieldAt_bytes _ _ _ _ H28), !le32_value.
  change (2 ^ 31) with 2147483648 in Hr. change (2 ^ 32) with 4294967296.
  rewrite !Z.mod_small by lia. done.
Qed.

Lemma wav_rates_consistent_witness :
  exists out,
    _floatArrayToWav [f32_half] SAMPLE_RATE = Ok out
    /\ fieldAt out 24 4 = SAMPLE_RATE
    /\ fieldAt out 28 4 = fieldAt out 24 4 * fieldAt out 32 2
    /\ fieldAt out 32 2 = fieldAt out 22 2 * (fieldAt out 34 2 / 8).
Proof. apply wav_rates_consistent. by vm_compute. Defined.

(** * Further properties of the tokenizer *)

Section TokenizerProperties.

Lemma VOCAB_range (c : codepoint) (id : Z) :
  VOCAB !! c = Some id -> 2 <= id <= 58.
Proof.
  intros Hc. apply elem_of_map_to_list in Hc.
  assert (Hall : Forall (fun p : N * Z => 2 <= p.2 <= 58) (map_to_list VOCAB)).
  { vm_compute. repeat constructor; discriminate. }
  rewrite Forall_forall in Hall. by apply Hall in Hc.
Qed.

Lemma omap_VOCAB_range (chars : jsstring) :
  Forall (fun id => 2 <= id <= 58) (omap (fun char => VOCAB !! char) chars).
Proof.
  induction chars as [|c chars IH]; [constructor|].
  cbn [omap list_omap]. destruct (VOCAB !! c) as [id|] eqn:Hc; [|done].
  cbn [from_option]. constructor; [by apply (VOCAB_range c) | done].
Qed.

Lemma omap_VOCAB_length (chars : jsstring) :
  (length (omap (fun char => VOCAB !! char) chars) <= length chars)%nat.
Proof.
  induction chars as [|c chars IH]; [done|].
  cbn [omap list_omap length]. destruct (VOCAB !! c); cbn [length]; lia.
Qed.

End TokenizerProperties.

(** X8. The sentinel 0 occurs only at the two ends of a token sequence:
    every token between them is a vocabulary id between 2 and 58. *)
Theorem tokenize_interior_range (rt : Runtime) (text : jsstring) :
  exists interior,
    tokenize rt text = 0 :: interior ++ [0]
    /\ Forall (fun id => 2 <= id <= 58) interior
    /\ 0 ∉ interior.
Proof.
  exists (omap (fun char => VOCAB !! char) (toLowerCase rt text)).
  split; [apply tokenize_eq|].
  pose proof (omap_VOCAB_range (toLowerCase rt text)) as Hr.
  split; [done|].
  intros H0. rewrite Forall_forall in Hr. apply Hr in H0. lia.
Qed.

(** X9. On ASCII text the tokenizer ignores case: two texts with the same
    lower-cased form get the same tokens. *)
Theorem tokenize_case_insensitive (rt : Runtime) (a b : jsstring) :
  lowers_ascii rt -> Forall is_ascii a -> Forall is_ascii b ->
  map ascii_lower a = map ascii_lower b ->
  tokenize rt a = tokenize rt b.
Proof.
  intros Hrt Ha Hb Hab. by rewrite !tokenize_eq, !Hrt, Hab.
Qed.

Lemma tokenize_case_insensitive_witness :
  let rt := reference_runtime [] (Ok None) in
  tokenize rt (js "HELLO, World!") = tokenize rt (js "hello, wORLD!").
Proof.
  intros rt. apply tokenize_case_insensitive.
  - intros s _. reflexivity.
  - vm_compute. repeat constructor.
  - vm_compute. repeat constructor.
  - reflexivity.
Defined.

(** X10. Tokenizing a concatenation of ASCII texts: the tokens between
    the sentinels are those of the first text followed by those of the
    second. *)
Theorem tokenize_concatenation (rt : Runtime) (a b : jsstring) :
  lowers_ascii rt -> Forall is_ascii a -> Forall is_ascii b ->
  exists ia ib,
    tokenize rt a = 0 :: ia ++ [0]
    /\ tokenize rt b = 0 :: ib ++ [0]
    /\ tokenize rt (a ++ b) = 0 :: (ia ++ ib) ++ [0].
Proof.
  intros Hrt Ha Hb.
  exists (omap (fun char => VOCAB !! char) (map ascii_lower a)),
         (omap (fun char => VOCAB !! char) (map ascii_lower b)).
  rewrite !tokenize_eq, !Hrt by (done || by apply Forall_app).
  split; [done|]. split; [done|].
  by rewrite map_app, omap_app.
Qed.

Lemma tokenize_concatenation_witness :
  let rt := reference_runtime [] (Ok None) in
  tokenize rt (js "Hi" ++ js ", yo") = [0; 40; 41; 2; 6; 57; 47; 0].
Proof.
  intros rt.
  destruct (tokenize_concatenation rt (js "Hi") (js ", yo"))
    as (ia & ib & Ha & Hb & Hab).
  - intros s _. reflexivity.
  - vm_compute. repeat constructor.
  - vm_compute. repeat constructor.
  - rewrite Hab. vm_compute in Ha, Hb. by simplify_eq.
Defined.

(** X11. No truncation and no padding: the token sequence has exactly two
    more elements than the number of lower-cased characters found in the
    vocabulary, hence at most two more than the lower-cased text; the style
    token count is that number of characters, capped at 509. *)
Theorem tokenize_length_exact (rt : Runtime) (text : jsstring) :
  let mapped := omap (fun char => VOCAB !! char) (toLowerCase rt text) in
  length (tokenize rt text) = (2 + length mapped)%nat
  /\ (length (tokenize rt text) <= 2 + length (toLowerCase rt text))%nat
  /\ numTokens (tokenize rt text) = Z.min (Z.of_nat (length mapped)) 509.
Proof.
  intros mapped. rewrite tokenize_length. fold mapped.
  split; [done|]. split.
  - pose proof (omap_VOCAB_length (toLowerCase rt text)) as H.
    fold mapped in H. lia.
  - unfold numTokens. rewrite tokenize_length. fold mapped. lia.
Qed.

(** * Properties of the voice download *)

Section DownloadProperties.
Variable rt : Runtime.

Ltac run_download :=
  unfold downloadVoice, mbind, mret, M_bind, M_ret, lift, emit, throw, try_catch;
  fold (voiceDirPath rt);
  cbn [fst snd app].

Lemma downloadVoice_unfold (voiceId : string) :
  downloadVoice rt voiceId
  = match getInfoAsync_exists rt (voiceDirPath rt) with
    | Throw _ => (Ok false, [])
    | Ok dirExists =>
        let mk := if dirExists then [] else [EvMakeDirectory (voiceDirPath rt)] in
        match (if dirExists then Ok tt
               else makeDirectoryAsync rt (voiceDirPath rt)) with
        | Throw _ => (Ok false, mk)
        | Ok _ =>
            match getInfoAsync_exists rt (voiceFilePath rt voiceId) with
            | Throw _ => (Ok false, mk)
            | Ok true => (Ok true, mk)
            | Ok false =>
                let dl := mk ++ [EvDownload (voiceUrl voiceId)
                                   (voiceFilePath rt voiceId)] in
                match downloadAsync_status rt (voiceUrl voiceId)
                        (voiceFilePath rt voiceId) with
                | Throw _ => (Ok false, dl)
                | Ok status => (Ok (status =? 200), dl)
                end
            end
        end
    end.
Proof.
  run_download. unfold voiceFilePath, voiceUrl.
  destruct (getInfoAsync_exists rt (voiceDirPath rt)) as [[]|]; cbn [negb app];
    [| destruct (makeDirectoryAsync rt (voiceDirPath rt)); cbn [app] |];
    try done;
    (destruct (getInfoAsync_exists rt _) as [[]|]; cbn [app]; try done;
     destruct (downloadAsync_status rt _ _) as [status|]; cbn [app]; try done;
     by destruct (status =? 200)).
Qed.

End DownloadProperties.

(** X12. [downloadVoice] never throws: whatever the file system and the
    network do, it returns a boolean, and it only touches the voice store
    (no inference run, no audio file, no Sound). *)
Theorem downloadVoice_never_throws (rt : Runtime) (voiceId : string) :
  exists b,
    fst (downloadVoice rt voiceId) = Ok b
    /\ forallb is_download_event (snd (downloadVoice rt voiceId)) = true.
Proof.
  destruct (downloadVoice_ok rt voiceId) as (b & dl & -> & Hdl). by exists b.
Qed.

(** X13. A voice that is already on disk is not fetched again: when the
    voice directory and the voice file exist, [downloadVoice] returns true
    without creating a directory or downloading anything. *)
Theorem downloadVoice_existing (rt : Runtime) (voiceId : string) :
  getInfoAsync_exists rt (voiceDirPath rt) = Ok true ->
  getInfoAsync_exists rt (voiceFilePath rt voiceId) = Ok true ->
  downloadVoice rt voiceId = (Ok true, []).
Proof.
  intros Hdir Hfile. by rewrite downloadVoice_unfold, Hdir, Hfile.
Qed.

Lemma downloadVoice_existing_witness :
  downloadVoice (reference_runtime [] (Ok None)) "af_heart" = (Ok true, []).
Proof. by apply downloadVoice_existing. Defined.

(** X14. [downloadVoice] reports success only for a voice that is on disk
    or was just fetched with HTTP status 200; a missing voice is fetched
    from VOICE_DATA_URL/<voiceId>.bin into <documents>voices/<voiceId>.bin,
    and any other status, or a failed download, gives false. *)
Theorem downloadVoice_success (rt : Runtime) (voiceId : string) :
  (fst (downloadVoice rt voiceId) = Ok true ->
   getInfoAsync_exists rt (voiceFilePath rt voiceId) = Ok true
   \/ downloadAsync_status rt (voiceUrl voiceId) (voiceFilePath rt voiceId)
      = Ok 200)
  /\ (getInfoAsync_exists rt (voiceDirPath rt) = Ok true ->
      getInfoAsync_exists rt (voiceFilePath rt voiceId) = Ok false ->
      downloadVoice rt voiceId
      = (Ok (match downloadAsync_status rt (voiceUrl voiceId)
                     (voiceFilePath rt voiceId) with
             | Ok status => status =? 200
             | Throw _ => false
             end),
         [EvDownload (voiceUrl voiceId) (voiceFilePath rt voiceId)])).
Proof.
  rewrite downloadVoice_unfold. split.
  - destruct (getInfoAsync_exists rt (voiceDirPath rt)) as [dirExists|]; [|done].
    cbv zeta.
    destruct (if dirExists then Ok tt else makeDirectoryAsync rt _); [|done].
    destruct (getInfoAsync_exists rt (voiceFilePath rt voiceId)) as [[]|];
      [by left | | done].
    destruct (downloadAsync_status rt _ _) as [status|]; [|done].
    cbn [fst]. intros [= Hs]. right. f_equal. by apply Z.eqb_eq.
  - intros -> ->. cbv zeta. by destruct (downloadAsync_status rt _ _).
Qed.

Lemma downloadVoice_success_witness :
  let rt := {| toLowerCase := map ascii_lower; btoa := base64;
               Date_now := 0; cacheDirectory := "c/"; documentDirectory := "d/";
               getInfoAsync_exists :=
                 fun p => Ok (String.eqb p "d/voices");
               makeDirectoryAsync := fun _ => Ok tt;
               downloadAsync_status := fun _ _ => Ok 404;
               writeAsStringAsync := fun _ _ => Ok tt;
               getVoiceData := fun _ => Ok [];
               Tensor_new := reference_Tensor_new;
               session_run := fun _ => Ok None;
               Sound_createAsync := fun uri => Ok (mkSound uri) |} in
  downloadVoice rt "bm_george"
  = (Ok false,
     [EvDownload
        "https://huggingface.co/onnx-community/Kokoro-82M-v1.0-ONNX/resolve/main/voices/bm_george.bin"
        "d/voices/bm_george.bin"]).
Proof.
  intros rt.
  destruct (downloadVoice_success rt "bm_george") as [_ H].
  by rewrite H.
Defined.

(** X15. The voice directory is created only when it is missing, and a
    failure to create it ends the attempt: [downloadVoice] returns false and
    nothing is downloaded. *)
Theorem downloadVoice_directory (rt : Runtime) (voiceId : string) :
  (getInfoAsync_exists rt (voiceDirPath rt) = Ok true ->
   forall path, EvMakeDirectory path ∉ snd (downloadVoice rt voiceId))
  /\ (getInfoAsync_exists rt (voiceDirPath rt) = Ok false ->
      forall e, makeDirectoryAsync rt (voiceDirPath rt) = Throw e ->
      downloadVoice rt voiceId = (Ok false, [EvMakeDirectory (voiceDirPath rt)])).
Proof.
  rewrite downloadVoice_unfold. split.
  - intros -> path. cbv zeta.
    destruct (getInfoAsync_exists rt (voiceFilePath rt voiceId)) as [[]|];
      cbn [snd app]; try apply not_elem_of_nil.
    destruct (downloadAsync_status rt _ _); cbn [snd];
      by intros [=]%list_elem_of_singleton.
  - by intros -> e ->.
Qed.

Lemma downloadVoice_directory_witness :
  let rt := {| toLowerCase := map ascii_lower; btoa := base64;
               Date_now := 0; cacheDirectory := "c/"; documentDirectory := "d/";
               getInfoAsync_exists := fun _ => Ok false;
               makeDirectoryAsync := fun _ => Throw (Foreign "EACCES");
               downloadAsync_status := fun _ _ => Ok 200;
               writeAsStringAsync := fun _ _ => Ok tt;
               getVoiceData := fun _ => Ok [];
               Tensor_new := reference_Tensor_new;
               session_run := fun _ => Ok None;
               Sound_createAsync := fun uri => Ok (mkSound uri) |} in
  downloadVoice rt "af_heart" = (Ok false, [EvMakeDirectory "d/voices"])
  /\ forall path,
       EvMakeDirectory path
       ∉ snd (downloadVoice (reference_runtime [] (Ok None)) "af_heart").
Proof.
  intros rt. split.
  - destruct (downloadVoice_directory rt "af_heart") as [_ H].
    by apply (H eq_refl (Foreign "EACCES")).
  - destruct (downloadVoice_directory (reference_runtime [] (Ok None)) "af_heart")
      as [H _].
    by apply H.
Defined.

(** * Further properties of the request pipeline *)

Section PipelineProperties.
Variable rt : Runtime.

Lemma play_waveform_eq (waveform : list spec_float) :
  play_waveform rt waveform
  = match writeAsStringAsync rt (tempFilePath rt) (btoa rt (wav_bytes waveform)) with
    | Throw e =>
        (Throw e, [EvWriteFile (tempFilePath rt) (btoa rt (wav_bytes waveform))])
    | Ok _ =>
        (Sound_createAsync rt (tempFilePath rt),
         [EvWriteFile (tempFilePath rt) (btoa rt (wav_bytes waveform));
          EvCreateSound (tempFilePath rt)])
    end.
Proof.
  unfold play_waveform. rewrite floatArrayToAudioFile_eq. fold (wav_bytes waveform).
  unfold mbind, M_bind, emit, lift.
  destruct (writeAsStringAsync rt _ _); [|done].
  by destruct (Sound_createAsync rt _).
Qed.

(** The log of a request on a loaded model, by stage. *)
Lemma generateAudio_log text voiceId speed :
  let v := default "af_heart"%string voiceId in
  let s := default (JS.number_of_Z 1) speed in
  exists dl, forallb is_download_event dl = true
    /\ snd (downloadVoice rt v) = dl
    /\ generateAudio rt loaded text voiceId speed
       = match request_inputs rt text v s with
         | Throw e => (Throw e, dl)
         | Ok inputs =>
             match session_run rt inputs with
             | Throw e => (Throw e, dl ++ [EvRun inputs])
             | Ok outputs =>
                 match waveform_of outputs with
                 | None => (Throw (Error "Invalid output from model inference"),
                            dl ++ [EvRun inputs])
                 | Some waveform =>
                     (fst (play_waveform rt waveform),
                      dl ++ [EvRun inputs] ++ snd (play_waveform rt waveform))
                 end
             end
         end.
Proof.
  intros v s.
  destruct (generateAudio_loaded rt text voiceId speed) as (b & dl & Hd & Hdl & Heq).
  exists dl. fold v in Hd. by rewrite Hd.
Qed.

Lemma request_inputs_input_ids text voiceId speed inputs :
  request_inputs rt text voiceId speed = Ok inputs ->
  let tokens := tokenize rt text in
  let dims := [1; Z.of_nat (length tokens)] in
  let first := Tensor_new rt "int64"
                 (Int32ArrayData (map (JS.wrap_signed 32) tokens)) dims in
  let second := Tensor_new rt "int64" (ArrayData tokens) dims in
  exists t, inputs !! "input_ids"%string = Some t
    /\ (first = Ok t \/ (exists e, first = Throw e /\ second = Ok t)).
Proof.
  intros H tokens dims first second.
  unfold request_inputs, getStyleSlice in H.
  fold tokens dims first second in H.
  unfold mbind, result_bind in H.
  destruct (getVoiceData rt voiceId) as [voiceData|]; [|done].
  destruct first as [t1|e1] eqn:H1.
  - repeat (case_match; [|done]). simplify_eq. exists t1. split; [done | by left].
  - destruct second as [t2|e2] eqn:H2; [|done].
    repeat (case_match; [|done]). simplify_eq. exists t2.
    split; [done | right; eauto].
Qed.

End PipelineProperties.

(** X16. If the voice data cannot be read, the request fails with the
    very exception of [getVoiceData]: the session is not run and no audio is
    produced. *)
Theorem generateAudio_voice_failure (rt : Runtime) (text : jsstring)
    (voiceId : option string) (speed : option JS.number) (e : exn) :
  getVoiceData rt (default "af_heart"%string voiceId) = Throw e ->
  generateAudio rt loaded text voiceId speed
  = (Throw e, snd (downloadVoice rt (default "af_heart"%string voiceId))).
Proof.
  intros Hv.
  destruct (generateAudio_log rt text voiceId speed) as (dl & _ & -> & ->).
  unfold request_inputs. by rewrite Hv.
Qed.

Lemma generateAudio_voice_failure_witness :
  let rt := {| toLowerCase := map ascii_lower; btoa := base64;
               Date_now := 0; cacheDirectory := "c/"; documentDirectory := "d/";
               getInfoAsync_exists := fun _ => Ok true;
               makeDirectoryAsync := fun _ => Ok tt;
               downloadAsync_status := fun _ _ => Ok 200;
               writeAsStringAsync := fun _ _ => Ok tt;
               getVoiceData := fun _ => Throw (Error "Voice not found");
               Tensor_new := reference_Tensor_new;
               session_run := fun _ => waveform_response [f32_one];
               Sound_createAsync := fun uri => Ok (mkSound uri) |} in
  generateAudio rt loaded (js "Hi.") None None
  = (Throw (Error "Voice not found"), []).
Proof. intros rt. by apply (generateAudio_voice_failure rt). Defined.

(** X17. The token tensor falls back from an [Int32Array] to the plain
    array: the request that is run carries the tensor of the first
    constructor if it succeeds, otherwise that of the second; when both
    throw, the request fails with the exception of the second. *)
Theorem generateAudio_tensor_fallback (rt : Runtime) (text : jsstring)
    (voiceId : option string) (speed : option JS.number) :
  let tokens := tokenize rt text in
  let dims := [1; Z.of_nat (length tokens)] in
  let first := Tensor_new rt "int64"
                 (Int32ArrayData (map (JS.wrap_signed 32) tokens)) dims in
  let second := Tensor_new rt "int64" (ArrayData tokens) dims in
  (forall inputs,
     EvRun inputs ∈ snd (generateAudio rt loaded text voiceId speed) ->
     exists t, inputs !! "input_ids"%string = Some t
       /\ (first = Ok t \/ (exists e, first = Throw e /\ second = Ok t)))
  /\ (forall voiceData e1 e2,
        getVoiceData rt (default "af_heart"%string voiceId) = Ok voiceData ->
        first = Throw e1 -> second = Throw e2 ->
        fst (generateAudio rt loaded text voiceId speed) = Throw e2).
Proof.
  intros tokens dims first second. split.
  - intros inputs [_ Hreq]%generateAudio_run_event.
    by apply request_inputs_input_ids in Hreq.
  - intros voiceData e1 e2 Hv H1 H2.
    destruct (generateAudio_log rt text voiceId speed) as (dl & _ & _ & ->).
    unfold request_inputs, getStyleSlice. rewrite Hv.
    fold tokens dims first second. by rewrite H1, H2.
Qed.

Lemma generateAudio_tensor_fallback_witness :
  let rt := reference_runtime (voice_of_frames 4) (waveform_response [f32_one]) in
  exists inputs,
    EvRun inputs ∈ snd (generateAudio rt loaded (js "Hi.") None None)
    /\ inputs !! "input_ids"%string
       = Some (mkTensor "int64" (ArrayData [0; 40; 41; 3; 0]) [1; 5]).
Proof.
  intros rt.
  destruct (request_inputs rt (js "Hi.") "af_heart" (JS.number_of_Z 1))
    as [inputs|] eqn:Hreq; [|by vm_compute in Hreq].
  assert (Hin : EvRun inputs ∈ snd (generateAudio rt loaded (js "Hi.") None None)).
  { destruct (generateAudio_log rt (js "Hi.") None None) as (dl & _ & _ & ->).
    cbn [default]. rewrite Hreq. cbn [rt reference_runtime session_run].
    cbn [waveform_response waveform_of].
    rewrite lookup_singleton_eq. cbn [data snd].
    apply elem_of_app. right. apply list_elem_of_here. }
  exists inputs. split; [done|].
  destruct (generateAudio_tensor_fallback rt (js "Hi.") None None) as [H _].
  destruct (H inputs Hin) as (t & -> & [H1|(e & _ & H2)]).
  - by vm_compute in H1.
  - vm_compute in H2. by injection H2 as <-.
Defined.

(** X18. The successful request. When the request is built, the session
    returns a waveform, the file is written and the Sound is created, then
    [generateAudio] returns that Sound and, after the voice download, does
    exactly three things in this order: it runs the session once on the
    request, writes the base64 of the WAV encoding of the waveform at
    24000 Hz to the temporary file, and creates the Sound from that file. *)
Theorem generateAudio_success (rt : Runtime) (text : jsstring)
    (voiceId : option string) (speed : option JS.number)
    (inputs : gmap string Tensor) (outputs : Outputs)
    (waveform : list spec_float) (sound : Sound) :
  request_inputs rt text (default "af_heart"%string voiceId)
    (default (JS.number_of_Z 1) speed) = Ok inputs ->
  session_run rt inputs = Ok outputs ->
  waveform_of outputs = Some waveform ->
  writeAsStringAsync rt (tempFilePath rt) (btoa rt (wav_bytes waveform)) = Ok tt ->
  Sound_createAsync rt (tempFilePath rt) = Ok sound ->
  generateAudio rt loaded text voiceId speed
  = (Ok sound,
     snd (downloadVoice rt (default "af_heart"%string voiceId))
     ++ [EvRun inputs;
         EvWriteFile (tempFilePath rt) (btoa rt (wav_bytes waveform));
         EvCreateSound (tempFilePath rt)]).
Proof.
  intros Hreq Hrun Hw Hwrite Hsound.
  destruct (generateAudio_log rt text voiceId speed) as (dl & _ & -> & ->).
  by rewrite Hreq, Hrun, Hw, play_waveform_eq, Hwrite, Hsound.
Qed.

Lemma generateAudio_success_witness :
  let rt := reference_runtime (voice_of_frames 4)
              (waveform_response [f32_half; f32_neg_one]) in
  exists inputs,
    generateAudio rt loaded (js "Hi.") None None
    = (Ok (mkSound "file:///cache/temp_audio_1700000000000.wav"),
       [EvRun inputs;
        EvWriteFile "file:///cache/temp_audio_1700000000000.wav"
          "UklGRigAAABXQVZFZm10IBAAAAABAAEAwF0AAIC7AAACABAAZGF0YQQAAAD/PwGA";
        EvCreateSound "file:///cache/temp_audio_1700000000000.wav"]).
Proof.
  intros rt.
  destruct (request_inputs rt (js "Hi.") "af_heart" (JS.number_of_Z 1))
    as [inputs|] eqn:Hreq; [|by vm_compute in Hreq].
  exists inputs.
  by rewrite (generateAudio_success rt (js "Hi.") None None inputs
                (Some {[ "waveform"%string := mkOutput (Some [f32_half; f32_neg_one]) ]})
                [f32_half; f32_neg_one]
                (mkSound "file:///cache/temp_audio_1700000000000.wav")
                Hreq eq_refl eq_refl eq_refl eq_refl).
Defined.

(** X19. No audio file without a waveform: whenever [generateAudio]
    writes a file, the session was run on the request, it returned a
    response with waveform data, and the file is the temporary WAV file
    holding the base64 of the encoding of exactly that waveform. *)
Theorem generateAudio_write_origin (rt : Runtime) (this : KokoroOnnx)
    (text : jsstring) (voiceId : option string) (speed : option JS.number)
    (path base64 : string) :
  EvWriteFile path base64 ∈ snd (generateAudio rt this text voiceId speed) ->
  exists inputs outputs waveform,
    request_inputs rt text (default "af_heart"%string voiceId)
      (default (JS.number_of_Z 1) speed) = Ok inputs
    /\ session_run rt inputs = Ok outputs
    /\ waveform_of outputs = Some waveform
    /\ path = tempFilePath rt
    /\ base64 = btoa rt (wav_bytes waveform).
Proof.
  intros Hin. destruct (loaded_or_not this) as [->|Hne].
  - destruct (generateAudio_log rt text voiceId speed) as (dl & Hdl & _ & Heq).
    rewrite Heq in Hin. clear Heq.
    assert (Hnd : EvWriteFile path base64 ∉ dl).
    { intros H. rewrite forallb_forall in Hdl.
      apply list_elem_of_In in H. by apply Hdl in H. }
    destruct (request_inputs rt text _ _) as [inputs|e]; [|done].
    destruct (session_run rt inputs) as [outputs|e] eqn:Hrun; cbn [snd] in Hin.
    + destruct (waveform_of outputs) as [w|] eqn:Hw; cbn [snd] in Hin.
      * exists inputs, outputs, w. do 3 (split; [done|]).
        rewrite play_waveform_eq in Hin.
        apply elem_of_app in Hin as [?|Hin]; [done|].
        apply elem_of_cons in Hin as [?|Hin]; [done|].
        destruct (writeAsStringAsync rt _ _); cbn [snd] in Hin;
          apply elem_of_cons in Hin as [[= -> ->]|Hin]; try done.
        -- by apply elem_of_cons in Hin as [?|?%elem_of_nil].
        -- by apply elem_of_nil in Hin.
      * apply elem_of_app in Hin as [?|Hin]; [done|].
        by apply list_elem_of_singleton in Hin.
    + apply elem_of_app in Hin as [?|Hin]; [done|].
      by apply list_elem_of_singleton in Hin.
  - destruct (generateAudio_not_ready rt this text voiceId speed Hne) as [e He].
    rewrite He in Hin. by apply elem_of_nil in Hin.
Qed.

Lemma generateAudio_write_origin_witness :
  let rt := reference_runtime (voice_of_frames 4) (waveform_response [f32_one]) in
  exists path base64,
    EvWriteFile path base64 ∈ snd (generateAudio rt loaded (js "Hi.") None None)
    /\ path = tempFilePath rt
    /\ base64 = btoa rt (wav_bytes [f32_one]).
Proof.
  intros rt.
  assert (Hin : EvWriteFile (tempFilePath rt) (btoa rt (wav_bytes [f32_one]))
                ∈ snd (generateAudio rt loaded (js "Hi.") None None)).
  { destruct (generateAudio_log rt (js "Hi.") None None) as (dl & _ & _ & ->).
    destruct (request_inputs rt (js "Hi.") _ _) as [inputs|] eqn:Hreq;
      [|by vm_compute in Hreq].
    cbn [rt reference_runtime session_run waveform_response waveform_of].
    rewrite lookup_singleton_eq. cbn [data snd].
    rewrite play_waveform_eq. cbn [rt reference_runtime writeAsStringAsync snd].
    apply elem_of_app. right. apply list_elem_of_further, list_elem_of_here. }
  destruct (generateAudio_write_origin rt loaded (js "Hi.") None None _ _ Hin)
    as (i & o & w & _ & _ & _ & Hp & Hb).
  by exists (tempFilePath rt), (btoa rt (wav_bytes [f32_one])).
Defined.

(** X20. If writing the audio file fails, the request fails with the
    exception of the write and no Sound is created. *)
Theorem generateAudio_write_failure (rt : Runtime) (text : jsstring)
    (voiceId : option string) (speed : option JS.number)
    (inputs : gmap string Tensor) (outputs : Outputs)
    (waveform : list spec_float) (e : exn) :
  request_inputs rt text (default "af_heart"%string voiceId)
    (default (JS.number_of_Z 1) speed) = Ok inputs ->
  session_run rt inputs = Ok outputs ->
  waveform_of outputs = Some waveform ->
  writeAsStringAsync rt (tempFilePath rt) (btoa rt (wav_bytes waveform)) = Throw e ->
  fst (generateAudio rt loaded text voiceId speed) = Throw e
  /\ forall uri,
       EvCreateSound uri ∉ snd (generateAudio rt loaded text voiceId speed).
Proof.
  intros Hreq Hrun Hw Hwrite.
  destruct (generateAudio_log rt text voiceId speed) as (dl & Hdl & _ & ->).
  rewrite Hreq, Hrun, Hw, play_waveform_eq, Hwrite. cbn [fst snd].
  split; [done|]. intros uri Hin.
  apply elem_of_app in Hin as [Hin|Hin].
  - rewrite forallb_forall in Hdl. apply list_elem_of_In in Hin.
    by apply Hdl in Hin.
  - apply elem_of_cons in Hin as [?|Hin]; [done|].
    by apply list_elem_of_singleton in Hin.
Qed.

Lemma generateAudio_write_failure_witness :
  let rt := {| toLowerCase := map ascii_lower; btoa := base64;
               Date_now := 0; cacheDirectory := "c/"; documentDirectory := "d/";
               getInfoAsync_exists := fun _ => Ok true;
               makeDirectoryAsync := fun _ => Ok tt;
               downloadAsync_status := fun _ _ => Ok 200;
               writeAsStringAsync := fun _ _ => Throw (Foreign "ENOSPC");
               getVoiceData := fun _ => Ok (voice_of_frames 4);
               Tensor_new := reference_Tensor_new;
               session_run := fun _ => waveform_response [f32_one];
               Sound_createAsync := fun uri => Ok (mkSound uri) |} in
  fst (generateAudio rt loaded (js "Hi.") None None) = Throw (Foreign "ENOSPC").
Proof.
  intros rt.
  destruct (request_inputs rt (js "Hi.") "af_heart" (JS.number_of_Z 1))
    as [inputs|] eqn:Hreq; [|by vm_compute in Hreq].
  by destruct (generateAudio_write_failure rt (js "Hi.") None None inputs
                 (Some {[ "waveform"%string := mkOutput (Some [f32_one]) ]})
                 [f32_one] (Foreign "ENOSPC") Hreq eq_refl eq_refl eq_refl).
Defined.

Lemma filter_bool_cons (f : event -> bool) (ev : event) (l : list event) :
  filter (fun ev => f ev = true) (ev :: l)
  = if f ev then ev :: filter (fun ev => f ev = true) l
    else filter (fun ev => f ev = true) l.
Proof.
  destruct (f ev) eqn:E.
  - by rewrite filter_cons_True.
  - rewrite filter_cons_False; [done|]. by rewrite E.
Qed.

Lemma filter_download_events (f : event -> bool) (dl : list event) :
  (forall ev, is_download_event ev = true -> f ev = false) ->
  forallb is_download_event dl = true ->
  filter (fun ev => f ev = true) dl = [].
Proof.
  intros Hf Hdl. induction dl as [|ev dl IH]; [done|].
  cbn [forallb] in Hdl. apply andb_prop in Hdl as [Hev Hdl].
  rewrite filter_bool_cons, (Hf ev Hev). by apply IH.
Qed.

(** X21. One request runs the session at most once and writes at most one
    file, and a file is only written after the session was run. *)
Theorem generateAudio_at_most_once (rt : Runtime) (this : KokoroOnnx)
    (text : jsstring) (voiceId : option string) (speed : option JS.number) :
  let log := snd (generateAudio rt this text voiceId speed) in
  (length (filter (fun ev => is_run_event ev = true) log) <= 1)%nat
  /\ (length (filter (fun ev => is_write_event ev = true) log) <= 1)%nat
  /\ (length (filter (fun ev => is_write_event ev = true) log)
      <= length (filter (fun ev => is_run_event ev = true) log))%nat.
Proof.
  intros log. subst log. destruct (loaded_or_not this) as [->|Hne].
  - destruct (generateAudio_log rt text voiceId speed) as (dl & Hdl & _ & ->).
    assert (Hr : filter (fun ev => is_run_event ev = true) dl = [])
      by (apply filter_download_events; [by intros [] | done]).
    assert (Hw : filter (fun ev => is_write_event ev = true) dl = [])
      by (apply filter_download_events; [by intros [] | done]).
    destruct (request_inputs rt text _ _) as [inputs|e]; cbn [snd].
    + destruct (session_run rt inputs) as [outputs|e]; cbn [snd].
      * destruct (waveform_of outputs) as [w|]; cbn [snd].
        -- rewrite play_waveform_eq.
           destruct (writeAsStringAsync rt _ _); cbn [snd app];
             rewrite !filter_app, Hr, Hw, !filter_bool_cons;
             cbn [is_run_event is_write_event app length filter list_filter];
             rewrite ?filter_nil; cbn [length]; lia.
        -- rewrite !filter_app, Hr, Hw, !filter_bool_cons.
           cbn [is_run_event is_write_event app length].
           rewrite ?filter_nil. cbn [length]. lia.
      * rewrite !filter_app, Hr, Hw, !filter_bool_cons.
        cbn [is_run_event is_write_event app length].
        rewrite ?filter_nil. cbn [length]. lia.
    + rewrite Hr, Hw. cbn [length]. lia.
  - destruct (generateAudio_not_ready rt this text voiceId speed Hne) as [e ->].
    cbn [snd]. rewrite !filter_nil. cbn [length]. lia.
Qed.

(** X22. [_floatArrayToAudioFile] cannot fail in the encoding: it always
    attempts exactly one write, of the base64 of the WAV bytes at 24000 Hz,
    to <cache>temp_audio_<now>.wav; it returns that path when the write
    succeeds and rethrows the exception of the write otherwise. *)
Theorem floatArrayToAudioFile_spec (rt : Runtime) (floatArray : list spec_float) :
  _floatArrayToWav floatArray 24000 = Ok (wav_bytes floatArray)
  /\ snd (_floatArrayToAudioFile rt floatArray)
     = [EvWriteFile
          (cacheDirectory rt +:+ "temp_audio_" +:+ pretty (Date_now rt) +:+ ".wav")
          (btoa rt (wav_bytes floatArray))]
  /\ fst (_floatArrayToAudioFile rt floatArray)
     = match writeAsStringAsync rt (tempFilePath rt)
               (btoa rt (wav_bytes floatArray)) with
       | Ok _ => Ok (tempFilePath rt)
       | Throw e => Throw e
       end.
Proof.
  split; [apply floatArrayToWav_bytes|].
  by rewrite floatArrayToAudioFile_eq.
Qed.

(** * Model loading and the speed control *)

Section LoadProperties.

Lemma SFcompare_antisym (x y : spec_float) (c : comparison) :
  SFcompare x y = Some c -> SFcompare y x = Some (CompOpp c).
Proof.
  destruct x as [sx|sx| |sx mx ex], y as [sy|sy| |sy my ey];
    cbn [SFcompare]; try discriminate;
    try (intros [= <-]; by repeat match goal with b : bool |- _ => destruct b end).
  intros [= <-]. f_equal.
  destruct sx, sy; try done.
  - rewrite (Z.compare_antisym ex ey).
    destruct (ex ?= ey) eqn:E; cbn [CompOpp]; try done.
    by rewrite (Pos.compare_cont_antisym mx my Eq).
  - rewrite (Z.compare_antisym ex ey).
    destruct (ex ?= ey) eqn:E; cbn [CompOpp]; try done.
    by rewrite (Pos.compare_cont_antisym mx my Eq).
Qed.

Lemma SFleb_flip (x y : spec_float) :
  SFleb x y = true ->
  SFcompare y x = Some Gt \/ SFcompare y x = Some Eq.
Proof.
  unfold SFleb. destruct (SFcompare x y) as [[]|] eqn:E; try done; intros _;
    apply SFcompare_antisym in E; auto.
Qed.

End LoadProperties.

(** X23. [loadModel] succeeds exactly when the runtime binding is present,
    the model file exists, and a session is obtained, with the options or,
    if that call throws, without them; whenever these conditions hold it
    returns true and the instance holds that session and is marked loaded
    and available, its voice cache unchanged. *)
Theorem loadModel_success (onnx : OnnxPlatform) (rt : Runtime) (this : Instance) :
  let with_options :=
    InferenceSession_create onnx (MODEL_PATH rt) (Some session_options) in
  let without_options := InferenceSession_create onnx (MODEL_PATH rt) None in
  let obtained s :=
    with_options = Ok (Some s)
    \/ ((exists e, with_options = Throw e) /\ without_options = Ok (Some s)) in
  (fst (loadModel onnx rt this) = true
   <-> (InferenceSession_defined onnx = true
        /\ InferenceSession_create_is_function onnx = true
        /\ getInfoAsync_exists rt (MODEL_PATH rt) = Ok true
        /\ exists s, obtained s))
  /\ (forall s,
        InferenceSession_defined onnx = true ->
        InferenceSession_create_is_function onnx = true ->
        getInfoAsync_exists rt (MODEL_PATH rt) = Ok true ->
        obtained s ->
        loadModel onnx rt this
        = (true, {| session := Some s; flags := loaded;
                    voiceCache := voiceCache this |})).
Proof.
  intros with_options without_options obtained.
  assert (Hif : forall s,
            InferenceSession_defined onnx = true ->
            InferenceSession_create_is_function onnx = true ->
            getInfoAsync_exists rt (MODEL_PATH rt) = Ok true ->
            obtained s ->
            loadModel onnx rt this
            = (true, {| session := Some s; flags := loaded;
                        voiceCache := voiceCache this |})).
  { intros s Hd Hc Hfile Hs. unfold loadModel, checkOnnxAvailability.
    rewrite Hd, Hc, Hfile. cbn [negb orb]. fold with_options without_options.
    destruct Hs as [-> | [[e ->] ->]]; reflexivity. }
  split; [|exact Hif]. split.
  - unfold loadModel, checkOnnxAvailability.
    fold with_options without_options. unfold obtained.
    destruct (InferenceSession_defined onnx),
             (InferenceSession_create_is_function onnx);
      cbn [negb orb fst]; try done.
    destruct (getInfoAsync_exists rt (MODEL_PATH rt)) as [[]|]; try done.
    destruct with_options as [[s|]|e1]; cbn [fst]; try done.
    + intros _. repeat (split; [done|]). exists s. by left.
    + destruct without_options as [[s|]|e2]; cbn [fst]; try done.
      intros _. repeat (split; [done|]). exists s. right. eauto.
  - intros (Hd & Hc & Hfile & s & Hs). by rewrite (Hif s Hd Hc Hfile Hs).
Qed.

Lemma loadModel_success_witness :
  let onnx := {| InferenceSession_defined := true;
                 InferenceSession_create_is_function := true;
                 Platform_OS := "ios";
                 InferenceSession_create := fun _ o =>
                   match o with
                   | Some _ => Throw (Foreign "unknown option")
                   | None => Ok (Some (SessionHandle 1))
                   end |} in
  let rt := reference_runtime [] (Ok None) in
  loadModel onnx rt constructor
  = (true, {| session := Some (SessionHandle 1); flags := loaded; voiceCache := ∅ |}).
Proof.
  intros onnx rt.
  destruct (loadModel_success onnx rt constructor) as [_ H].
  apply (H (SessionHandle 1) eq_refl eq_refl eq_refl).
  right. split; [by exists (Foreign "unknown option") | reflexivity].
Defined.

(** X24. A failed [loadModel] never marks the model loaded: the loaded
    flag keeps the value it had. When the failure is a missing runtime
    binding, the instance is marked unavailable and every later
    [generateAudio] fails with "ONNX Runtime is not available on this
    platform" before touching the platform. *)
Theorem loadModel_failure (onnx : OnnxPlatform) (rt : Runtime) (this : Instance) :
  fst (loadModel onnx rt this) = false ->
  isModelLoaded (flags (snd (loadModel onnx rt this))) = isModelLoaded (flags this)
  /\ (InferenceSession_defined onnx = false
      \/ InferenceSession_create_is_function onnx = false ->
      session (snd (loadModel onnx rt this)) = session this
      /\ forall rt' text voiceId speed,
           generateAudio rt' (flags (snd (loadModel onnx rt this))) text voiceId speed
           = (Throw (Error "ONNX Runtime is not available on this platform"), [])).
Proof.
  unfold loadModel, checkOnnxAvailability.
  destruct (InferenceSession_defined onnx), (InferenceSession_create_is_function onnx);
    cbn [negb orb fst snd]; intros Hf;
    try (split; [done|]; intros _; split; [done|]; intros rt' text voiceId speed;
         by unfold generateAudio).
  split; [|by intros [|]].
  destruct (getInfoAsync_exists rt (MODEL_PATH rt)) as [[]|]; try done.
  destruct (InferenceSession_create onnx _ (Some _)) as [[s|]|e1]; try done.
  destruct (InferenceSession_create onnx _ None) as [[s|]|e2]; try done.
Qed.

Lemma loadModel_failure_witness :
  let onnx := {| InferenceSession_defined := false;
                 InferenceSession_create_is_function := false;
                 Platform_OS := "web";
                 InferenceSession_create := fun _ _ => Ok (Some (SessionHandle 1)) |} in
  let rt := reference_runtime (voice_of_frames 4) (waveform_response [f32_one]) in
  let this := {| session := Some (SessionHandle 7); flags := loaded; voiceCache := ∅ |} in
  isModelLoaded (flags (snd (loadModel onnx rt this))) = true
  /\ generateAudio rt (flags (snd (loadModel onnx rt this))) (js "Hi.") None None
     = (Throw (Error "ONNX Runtime is not available on this platform"), []).
Proof.
  intros onnx rt this.
  destruct (loadModel_failure onnx rt this eq_refl) as [H1 H2].
  split; [exact H1|].
  destruct (H2 (or_introl eq_refl)) as [_ H3]. apply H3.
Defined.

(** X25. A new instance cannot synthesize: until [loadModel] has
    succeeded, [generateAudio] fails with "Model not loaded. Call
    loadModel() first." and touches nothing, also after a [loadModel] that
    failed because the model file is missing or unreadable. *)
Theorem generateAudio_before_load (onnx : OnnxPlatform) (rt : Runtime)
    (text : jsstring) (voiceId : option string) (speed : option JS.number) :
  generateAudio rt (flags constructor) text voiceId speed
  = (Throw (Error "Model not loaded. Call loadModel() first."), [])
  /\ (InferenceSession_defined onnx = true ->
      InferenceSession_create_is_function onnx = true ->
      getInfoAsync_exists rt (MODEL_PATH rt) <> Ok true ->
      loadModel onnx rt constructor = (false, constructor)
      /\ generateAudio rt (flags (snd (loadModel onnx rt constructor)))
           text voiceId speed
         = (Throw (Error "Model not loaded. Call loadModel() first."), [])).
Proof.
  split; [done|]. intros Hd Hc Hfile.
  assert (Hl : loadModel onnx rt constructor = (false, constructor)).
  { unfold loadModel, checkOnnxAvailability. rewrite Hd, Hc. cbn [negb orb].
    by destruct (getInfoAsync_exists rt (MODEL_PATH rt)) as [[]|]. }
  by rewrite Hl.
Qed.

Lemma generateAudio_before_load_witness :
  let onnx := {| InferenceSession_defined := true;
                 InferenceSession_create_is_function := true;
                 Platform_OS := "android";
                 InferenceSession_create := fun _ _ => Ok (Some (SessionHandle 1)) |} in
  let rt := {| toLowerCase := map ascii_lower; btoa := base64;
               Date_now := 0; cacheDirectory := "c/"; documentDirectory := "d/";
               getInfoAsync_exists := fun _ => Ok false;
               makeDirectoryAsync := fun _ => Ok tt;
               downloadAsync_status := fun _ _ => Ok 200;
               writeAsStringAsync := fun _ _ => Ok tt;
               getVoiceData := fun _ => Ok (voice_of_frames 4);
               Tensor_new := reference_Tensor_new;
               session_run := fun _ => waveform_response [f32_one];
               Sound_createAsync := fun uri => Ok (mkSound uri) |} in
  loadModel onnx rt constructor = (false, constructor).
Proof.
  intros onnx rt.
  destruct (generateAudio_before_load onnx rt [] None None) as [_ H].
  by destruct (H eq_refl eq_refl) as [Hl _].
Defined.

(** X26. A session that comes back falsy is stored all the same: if
    [InferenceSession.create] returns no session without throwing,
    [loadModel] returns false, does not try the call without options, and
    leaves the instance with no session while the loaded flag keeps its
    previous value. *)
Theorem loadModel_falsy_session (onnx : OnnxPlatform) (rt : Runtime) (this : Instance) :
  InferenceSession_defined onnx = true ->
  InferenceSession_create_is_function onnx = true ->
  getInfoAsync_exists rt (MODEL_PATH rt) = Ok true ->
  InferenceSession_create onnx (MODEL_PATH rt) (Some session_options) = Ok None ->
  fst (loadModel onnx rt this) = false
  /\ session (snd (loadModel onnx rt this)) = None
  /\ isModelLoaded (flags (snd (loadModel onnx rt this))) = isModelLoaded (flags this).
Proof.
  intros Hd Hc Hfile Hcreate.
  unfold loadModel, checkOnnxAvailability. by rewrite Hd, Hc, Hfile, Hcreate.
Qed.

Lemma loadModel_falsy_session_witness :
  let onnx := {| InferenceSession_defined := true;
                 InferenceSession_create_is_function := true;
                 Platform_OS := "ios";
                 InferenceSession_create := fun _ o =>
                   match o with
                   | Some _ => Ok None
                   | None => Ok (Some (SessionHandle 2))
                   end |} in
  let rt := reference_runtime [] (Ok None) in
  let this := {| session := Some (SessionHandle 7); flags := loaded; voiceCache := ∅ |} in
  loadModel onnx rt this
  = (false, {| session := None; flags := loaded; voiceCache := ∅ |}).
Proof.
  intros onnx rt this.
  destruct (loadModel_falsy_session onnx rt this eq_refl eq_refl eq_refl eq_refl)
    as (H1 & H2 & H3).
  reflexivity.
Defined.

(** X27. The speed control clamps: for every Number that is not NaN the
    adjusted speed lies between 0.5 and 2.0, a speed already in that range is
    kept as it is, and NaN is passed through unchanged. *)
Theorem adjustSpeed_clamps (newSpeed : JS.number) :
  (newSpeed <> S754_nan ->
   SFleb number_half (adjustSpeed newSpeed) = true
   /\ SFleb (adjustSpeed newSpeed) number_two = true)
  /\ (SFleb number_half newSpeed = true -> SFleb newSpeed number_two = true ->
      adjustSpeed newSpeed = newSpeed)
  /\ adjustSpeed S754_nan = S754_nan.
Proof.
  split; [|split; [|done]].
  - intros Hnan. unfold adjustSpeed, JS.Math_min.
    destruct (SFcompare number_two newSpeed) as [c|] eqn:E2;
      [|by destruct newSpeed].
    assert (Hx : SFcompare number_two newSpeed = Some Gt
                 \/ SFcompare number_two newSpeed = Some Eq ->
                 SFleb number_half
                   (JS.Math_max number_half newSpeed) = true
                 /\ SFleb (JS.Math_max number_half newSpeed) number_two = true).
    { intros Hc.
      assert (Hle : SFleb newSpeed number_two = true).
      { unfold SFleb. destruct Hc as [Hc|Hc];
          apply SFcompare_antisym in Hc; by rewrite Hc. }
      unfold JS.Math_max.
      destruct (SFcompare number_half newSpeed) as [c'|] eqn:E1;
        [|by destruct newSpeed].
      destruct c'; cbn [number_half]; fold number_half;
        unfold SFleb at 1; rewrite ?E1; try done. }
    destruct c; [apply Hx; auto | done | apply Hx; auto].
  - intros Hlo Hhi. unfold adjustSpeed, JS.Math_min, JS.Math_max.
    apply SFleb_flip in Hhi as [->| ->]; cbn [number_two];
      unfold SFleb in Hlo;
      destruct (SFcompare number_half newSpeed) as [[]|]; done.
Qed.

Lemma adjustSpeed_clamps_witness :
  adjustSpeed (JS.number_of_Z 3) = number_two
  /\ adjustSpeed (JS.number_of_Z 1) = JS.number_of_Z 1.
Proof.
  split; [reflexivity|].
  by apply (adjustSpeed_clamps (JS.number_of_Z 1)).
Defined.

(** X28. The conversion rounds towards minus infinity: a negative sample,
    however small, gets a PCM value of at most -1, and a sample that is zero
    or positive never gets a negative one. *)
Theorem floatToPcm_sign (s : spec_float) :
  JS.is_float32 s = true -> is_finite_sample s = true ->
  ((F2Q s < 0)%Q -> floatToPcm s <= -1)
  /\ ((0 <= F2Q s)%Q -> 0 <= floatToPcm s).
Proof.
  intros Hv Hf. rewrite floatToPcm_sample by done. unfold pcm_spec, clamp.
  split.
  - intros Hneg.
    assert (Hq : (F2Q s * (32767 # 1) < 0)%Q).
    { rewrite <- (Qmult_0_l (32767 # 1)). by apply Qmult_lt_r. }
    assert (Qfloor (F2Q s * (32767 # 1)) < 0); [|lia].
    rewrite Zlt_Qlt. eapply Qle_lt_trans; [apply Qfloor_le | exact Hq].
  - intros Hpos.
    assert (0 <= Qfloor (F2Q s * (32767 # 1))); [|lia].
    change 0 with (Qfloor 0). apply Qfloor_resp_le.
    by apply Qmult_le_0_compat.
Qed.

Lemma floatToPcm_sign_witness :
  floatToPcm (S754_finite true 1 (-149)) <= -1 /\ 0 <= floatToPcm f32_half.
Proof.
  split.
  - by apply (floatToPcm_sign (S754_finite true 1 (-149))).
  - by apply (floatToPcm_sign f32_half).
Defined.

Section RequestShape.

Lemma wrap_signed_32_tokens (rt : Runtime) (text : jsstring) :
  map (JS.wrap_signed 32) (tokenize rt text) = tokenize rt text.
Proof.
  assert (Hw : forall v, 0 <= v <= 58 -> JS.wrap_signed 32 v = v).
  { intros v Hv. unfold JS.wrap_signed.
    change (2 ^ 32) with 4294967296. change (2 ^ (32 - 1)) with 2147483648.
    rewrite Z.mod_small by lia. destruct (Z.leb_spec 2147483648 v); lia. }
  rewrite tokenize_eq. cbn [map]. rewrite map_app. cbn [map].
  rewrite (Hw 0) by lia. do 2 f_equal.
  pose proof (omap_VOCAB_range (toLowerCase rt text)) as Hr.
  induction Hr as [|v l Hv _ IH]; [done|].
  cbn [map]. rewrite Hw by lia. by rewrite IH.
Qed.

End RequestShape.

(** X29. What the engine receives: whenever the session is run, the
    request has exactly the three inputs [input_ids], [style] and [speed];
    the token tensor was built with type int64 and shape [1, tokens.length]
    from the whole token sequence (the [Int32Array] conversion changes no
    token), and the speed tensor from the speed rounded to binary32. *)
Theorem generateAudio_request_shape (rt : Runtime) (this : KokoroOnnx)
    (text : jsstring) (voiceId : option string) (speed : option JS.number)
    (inputs : gmap string Tensor) :
  EvRun inputs ∈ snd (generateAudio rt this text voiceId speed) ->
  let tokens := tokenize rt text in
  dom inputs = {[ "input_ids"%string; "style"%string; "speed"%string ]}
  /\ (exists t,
        inputs !! "input_ids"%string = Some t
        /\ (Tensor_new rt "int64" (Int32ArrayData tokens)
              [1; Z.of_nat (length tokens)] = Ok t
            \/ Tensor_new rt "int64" (ArrayData tokens)
                 [1; Z.of_nat (length tokens)] = Ok t))
  /\ (exists t,
        inputs !! "speed"%string = Some t
        /\ Tensor_new rt "float32"
             (Float32ArrayData [JS.fround (default (JS.number_of_Z 1) speed)]) [1]
           = Ok t).
Proof.
  intros [_ Hreq]%generateAudio_run_event tokens.
  pose proof Hreq as Hinv.
  apply request_inputs_inv in Hinv
    as (voiceData & input_ids & style & speed_t & _ & Hids & _ & Hsp & Hl1 & _ & Hl3).
  rewrite wrap_signed_32_tokens in Hids. fold tokens in Hids.
  split; [|split; [by exists input_ids | by exists speed_t]].
  unfold request_inputs, getStyleSlice, mbind, result_bind in Hreq.
  repeat (case_match; try done); simplify_eq;
    rewrite !dom_insert_L, dom_empty_L;
    apply set_eq; intros k;
    rewrite !elem_of_union, !elem_of_singleton, elem_of_empty; tauto.
Qed.

Lemma generateAudio_request_shape_witness :
  let rt := reference_runtime (voice_of_frames 4) (waveform_response [f32_one]) in
  exists inputs,
    EvRun inputs ∈ snd (generateAudio rt loaded (js "Hi.") None None)
    /\ dom inputs = {[ "input_ids"%string; "style"%string; "speed"%string ]}.
Proof.
  intros rt.
  destruct (request_inputs rt (js "Hi.") "af_heart" (JS.number_of_Z 1))
    as [inputs|] eqn:Hreq; [|by vm_compute in Hreq].
  assert (Hin : EvRun inputs ∈ snd (generateAudio rt loaded (js "Hi.") None None)).
  { destruct (generateAudio_log rt (js "Hi.") None None) as (dl & _ & _ & ->).
    cbn [default]. rewrite Hreq. cbn [rt reference_runtime session_run].
    cbn [waveform_response waveform_of].
    rewrite lookup_singleton_eq. cbn [data snd].
    apply elem_of_app. right. apply list_elem_of_here. }
  exists inputs. split; [done|].
  by destruct (generateAudio_request_shape rt loaded (js "Hi.") None None inputs Hin)
    as [H _].
Defined.

(** X30. With a voice blob of at least 510 frames (130560 floats) the
    style lookup returns a full frame of 256 floats for every text: the
    clamp of the token count to 509 keeps the slice inside the blob. *)
Theorem style_frame_always_full (rt : Runtime) (text : jsstring)
    (voiceData : list spec_float) :
  510 * 256 <= Z.of_nat (length voiceData) ->
  exists frame,
    getStyleSlice voiceData (numTokens (tokenize rt text)) = Ok frame
    /\ length frame = 256%nat.
Proof.
  intros Hlen. pose proof (numTokens_range (tokenize rt text)) as Hn.
  eexists. split; [reflexivity|].
  unfold STYLE_DIM. rewrite slice_in_range by lia.
  rewrite length_take, length_drop. lia.
Qed.

Lemma style_frame_always_full_witness :
  exists frame,
    getStyleSlice (voice_of_frames 510)
      (numTokens (tokenize (reference_runtime [] (Ok None)) (js "Hello")))
    = Ok frame
    /\ length frame = 256%nat.
Proof.
  apply style_frame_always_full. vm_compute. discriminate.
Defined.
